(** * Table normalisation of [server/pdf-extractor.ts]

    A shallow embedding of [cleanValue], of [convertJsonToParsedData] and
    of what the two extraction functions do with the response of the
    service, and the properties of the normalisation pipeline.

    Conventions of the model.
    - A JavaScript string is the list of its UTF-16 code units ([N]).
    - A JavaScript number is kept as an exact decimal (sign, mantissa,
      power of ten): the mathematical value of a numeric literal, before
      the rounding to binary64, which is not modelled.
    - An input value is a JSON value (what [JSON.parse] can build) or
      [undefined].  An input object is the list of its own properties in
      enumeration order.
    - A property read that finds no own property goes on along the
      prototype chain.  What it finds there is an object of the host's
      library (a built-in function such as [Object], or a prototype
      object); the names and the texts of these objects depend on the
      host, which is a parameter, [inherited].
    - [Object.prototype] has the accessor [__proto__] (ECMAScript, annex
      B, as in Node.js).  An assignment [o.__proto__ = v] to an object
      that inherits it writes no property: it sets the prototype of [o]
      when [v] is an object or [null] and does nothing otherwise.  The
      objects the function builds ([newRow], [samples], [columnTypes])
      are modelled with that.
    - A raised exception is an explicit result, [Throws].
    - [Date] parsing depends on the host: the function takes the host's
      verdict as a parameter, [dateParses]. *)

From Stdlib Require Import NArith ZArith String Ascii List Lia Bool.
From Stdlib Require DecimalN.
From stdpp Require Import base option list gmap.

Local Open Scope N_scope.

(** ** Strings *)

Abbreviation jsstring := (list N).

(** The code units of an ASCII literal. *)
Definition str (s : string) : jsstring :=
  List.map N_of_ascii (list_ascii_of_string s).
Arguments str s%_string.

(** ECMAScript [LineTerminator]: LF, CR, LS, PS. *)
Definition isLineTerminator (c : N) : bool :=
  (c =? 10) || (c =? 13) || (c =? 0x2028) || (c =? 0x2029).

(** ECMAScript [WhiteSpace]: TAB, VT, FF, ZWNBSP and the space separators. *)
Definition isWhiteSpace (c : N) : bool :=
  (c =? 9) || (c =? 11) || (c =? 12) || (c =? 0xFEFF) ||
  (c =? 0x20) || (c =? 0xA0) || (c =? 0x1680) ||
  ((0x2000 <=? c) && (c <=? 0x200A)) ||
  (c =? 0x202F) || (c =? 0x205F) || (c =? 0x3000).

(** What [String.prototype.trim] strips and the regular expression class
    [\s] matches. *)
Definition isSpace (c : N) : bool := isWhiteSpace c || isLineTerminator c.

Fixpoint dropWhile (p : N -> bool) (s : jsstring) : jsstring :=
  match s with
  | [] => []
  | c :: r => if p c then dropWhile p r else s
  end.

Definition dropWhileEnd (p : N -> bool) (s : jsstring) : jsstring :=
  rev (dropWhile p (rev s)).

(** [s.trim()] *)
Definition trim (s : jsstring) : jsstring :=
  dropWhileEnd isSpace (dropWhile isSpace s).

(** [s.replace(/,/g, '')]; 44 is the comma. *)
Definition removeCommas (s : jsstring) : jsstring :=
  List.filter (fun c => negb (c =? 44)) s.

(** A regular expression that is a sequence of one-character atoms. *)
Definition atom := N -> bool.

(** A letter under the flag [i] (without [u]): an input code unit matches
    when it has the same canonical (upper case) form; the canonical form of
    a code unit above 127 is never an ASCII letter, so an ASCII letter is
    matched by its two cases only.  [u] is the upper case code unit. *)
Definition letterI (u : N) : atom := fun c => (c =? u) || (c =? u + 32).

(** [.] without the flag [s]: any code unit but a line terminator. *)
Definition anyChar : atom := fun c => negb (isLineTerminator c).

(** The rest of [s] after a match of the atoms at its start. *)
Fixpoint matchPrefix (re : list atom) (s : jsstring) : option jsstring :=
  match re with
  | [] => Some s
  | a :: re' =>
      match s with
      | [] => None
      | c :: r => if a c then matchPrefix re' r else None
      end
  end.

(** [s.replace(re, '')] for a pattern without the flag [g]: the leftmost
    match is removed, and only that one. *)
Fixpoint removeFirst (re : list atom) (s : jsstring) : jsstring :=
  match matchPrefix re s with
  | Some rest => rest
  | None =>
      match s with
      | [] => []
      | c :: r => c :: removeFirst re r
      end
  end.

(** The pattern [/(Approx.)/i]: the parentheses are a capture group and
    the dot is the wildcard, so it reads: a, p, p, r, o, x in either case
    (65, 80, 82, 79 and 88 are A, P, R, O and X), then one more
    character. *)
Definition approxRegex : list atom :=
  [letterI 65; letterI 80; letterI 80; letterI 82; letterI 79; letterI 88;
   anyChar].

(** [s.replace(/(Approx.)/i, '')] *)
Definition removeApprox (s : jsstring) : jsstring := removeFirst approxRegex s.

(** The decimal digits of a natural number, as code units. *)
Fixpoint uintDigits (u : Decimal.uint) : jsstring :=
  match u with
  | Decimal.Nil => []
  | Decimal.D0 r => 48 :: uintDigits r
  | Decimal.D1 r => 49 :: uintDigits r
  | Decimal.D2 r => 50 :: uintDigits r
  | Decimal.D3 r => 51 :: uintDigits r
  | Decimal.D4 r => 52 :: uintDigits r
  | Decimal.D5 r => 53 :: uintDigits r
  | Decimal.D6 r => 54 :: uintDigits r
  | Decimal.D7 r => 55 :: uintDigits r
  | Decimal.D8 r => 56 :: uintDigits r
  | Decimal.D9 r => 57 :: uintDigits r
  end.

Definition decimal (n : N) : jsstring := uintDigits (N.to_uint n).

(** ** Results *)

Inductive exn := TypeError.

Inductive result (A : Type) :=
| Returns (a : A)
| Throws (e : exn).
Arguments Returns {A} a.
Arguments Throws {A} e.

#[global] Instance result_ret : MRet result := @Returns.

#[global] Instance result_bind : MBind result := fun A B k r =>
  match r with
  | Returns a => k a
  | Throws e => Throws e
  end.

(** [l.map(f)] with a callback that may throw: left to right, stopping at
    the first exception. *)
Fixpoint mapM {A B} (f : A -> result B) (l : list A) : result (list B) :=
  match l with
  | [] => Returns []
  | x :: r => y ← f x; ys ← mapM f r; Returns (y :: ys)
  end.

(** A loop whose body may throw, threading the loop state. *)
Fixpoint foldM {A S} (f : S -> A -> result S) (l : list A) (s : S) : result S :=
  match l with
  | [] => Returns s
  | x :: r => s' ← f s x; foldM f r s'
  end.

(** ** Numbers *)

(** [Finite neg m e] is [(-1)^neg * m * 10^e]. *)
Inductive number :=
| NaN
| Infinity (neg : bool)
| Finite (neg : bool) (m : N) (e : Z).

Definition isNaN (n : number) : bool :=
  match n with NaN => true | _ => false end.

(** Trailing zeros of the mantissa move into the exponent; zero has
    exponent 0. *)
Fixpoint stripZeros (fuel : nat) (m : N) (e : Z) : N * Z :=
  match fuel with
  | O => (m, e)
  | S fuel' =>
      if (m =? 0) then (0, 0%Z)
      else if (m mod 10 =? 0) then stripZeros fuel' (m / 10) (e + 1)%Z
      else (m, e)
  end.

Definition finite (neg : bool) (m : N) (e : Z) : number :=
  let '(m', e') := stripZeros (S (N.to_nat (N.log2 m))) m e in
  Finite neg m' e'.

Definition isDigit (c : N) : bool := (48 <=? c) && (c <=? 57).

Definition hexValue (c : N) : option N :=
  if isDigit c then Some (c - 48)
  else if (97 <=? c) && (c <=? 102) then Some (c - 87)
  else if (65 <=? c) && (c <=? 70) then Some (c - 55)
  else None.

(** The value of a non-empty run of digits of the given radix, which must
    be the whole string. *)
Fixpoint digitsValue (radix : N) (acc : N) (s : jsstring) : option N :=
  match s with
  | [] => Some acc
  | c :: r =>
      match hexValue c with
      | Some d => if d <? radix then digitsValue radix (acc * radix + d) r
                  else None
      | None => None
      end
  end.

Definition wholeNumber (radix : N) (s : jsstring) : option N :=
  match s with
  | [] => None
  | _ => digitsValue radix 0 s
  end.

(** The longest prefix of decimal digits, and the rest. *)
Fixpoint spanDigits (s : jsstring) : jsstring * jsstring :=
  match s with
  | [] => ([], [])
  | c :: r =>
      if isDigit c then let '(d, rest) := spanDigits r in (c :: d, rest)
      else ([], s)
  end.

Definition digitsN (s : jsstring) : N :=
  fold_left (fun acc c => acc * 10 + (c - 48)) s 0.

(** [ExponentPart], optional, up to the end of the string: [e] or [E]
    (101, 69), a sign (43, 45) or none, and digits. *)
Definition exponentPart (s : jsstring) : option Z :=
  match s with
  | [] => Some 0%Z
  | c :: r =>
      if (c =? 101) || (c =? 69) then
        match r with
        | 43 :: ds => option_map Z.of_N (wholeNumber 10 ds)
        | 45 :: ds => option_map (fun n => (- Z.of_N n)%Z) (wholeNumber 10 ds)
        | ds => option_map Z.of_N (wholeNumber 10 ds)
        end
      else None
  end.

(** [StrUnsignedDecimalLiteral]: [Infinity], or digits with an optional
    fraction after the dot (46) and an optional exponent. *)
Definition unsignedDecimal (neg : bool) (s : jsstring) : number :=
  if bool_decide (s = str "Infinity") then Infinity neg
  else
    let '(ip, r1) := spanDigits s in
    match r1 with
    | 46 :: r2 =>
        let '(fp, r3) := spanDigits r2 in
        match ip, fp with
        | [], [] => NaN
        | _, _ =>
            match exponentPart r3 with
            | Some e => finite neg (digitsN (ip ++ fp))
                          (e - Z.of_nat (length fp))%Z
            | None => NaN
            end
        end
    | _ =>
        match ip with
        | [] => NaN
        | _ =>
            match exponentPart r1 with
            | Some e => finite neg (digitsN ip) e
            | None => NaN
            end
        end
    end.

Definition nonDecimal (radix : N) (ds : jsstring) : number :=
  match wholeNumber radix ds with
  | Some n => finite false n 0
  | None => NaN
  end.

(** [StringToNumber]: the value of a [StringNumericLiteral], [NaN] when
    the string is not one.  The prefixes are [0x], [0o] and [0b] in either
    case, then the signs [+] and [-]. *)
Definition stringToNumber (s : jsstring) : number :=
  match trim s with
  | [] => Finite false 0 0
  | 48 :: 120 :: ds | 48 :: 88 :: ds => nonDecimal 16 ds
  | 48 :: 111 :: ds | 48 :: 79 :: ds => nonDecimal 8 ds
  | 48 :: 98 :: ds | 48 :: 66 :: ds => nonDecimal 2 ds
  | 43 :: ds => unsignedDecimal false ds
  | 45 :: ds => unsignedDecimal true ds
  | ds => unsignedDecimal false ds
  end.

Definition zeros (n : nat) : jsstring := repeat 48 n.

Definition exponentText (x : Z) : jsstring :=
  (if (x <? 0)%Z then 45 else 43) :: decimal (Z.abs_N x).

(** [Number::toString] in radix 10, on the digits of the mantissa. *)
Definition numberToString (x : number) : jsstring :=
  match x with
  | NaN => str "NaN"
  | Infinity neg => (if neg then [45] else []) ++ str "Infinity"
  | Finite neg m e =>
      let '(m, e) := stripZeros (S (N.to_nat (N.log2 m))) m e in
      if m =? 0 then [48]
      else
        let ds := decimal m in
        let k := Z.of_nat (length ds) in
        let n := (k + e)%Z in
        (if neg then [45] else []) ++
        (if (k <=? n)%Z && (n <=? 21)%Z then ds ++ zeros (Z.to_nat (n - k))
         else if (0 <? n)%Z && (n <=? 21)%Z then
           firstn (Z.to_nat n) ds ++ 46 :: skipn (Z.to_nat n) ds
         else if (-6 <? n)%Z && (n <=? 0)%Z then
           48 :: 46 :: zeros (Z.to_nat (- n)) ++ ds
         else
           match ds with
           | [d] => d :: 101 :: exponentText (n - 1)
           | d :: rest => d :: 46 :: rest ++ 101 :: exponentText (n - 1)
           | [] => []
           end)
  end.

(** ** Values *)

(** [undefined], the JSON values, and the objects of the host's library
    that a property read finds on a prototype chain: of a built-in the
    model keeps the text that [String] gives for it, which is all that
    this program asks of one. *)
#[warnings="-register-all"]
Inductive value :=
| VUndefined
| VNull
| VBool (b : bool)
| VNumber (n : number)
| VString (s : jsstring)
| VArray (elems : list value)
| VObject (props : list (jsstring * value))
| VBuiltin (text : jsstring).

(** The own property [k] of an object given by its property list. *)
Fixpoint ownProp (k : jsstring) (props : list (jsstring * value)) : option value :=
  match props with
  | [] => None
  | (k', v) :: r => if bool_decide (k' = k) then Some v else ownProp k r
  end.

(** [String(v)].  An array is joined with commas, [null] and [undefined]
    elements giving the empty string.  A plain object gives
    ["[object Object]"], unless an own property [toString] (never callable
    in a JSON value) hides the inherited method: then no conversion method
    answers with a primitive and a [TypeError] is thrown.  A built-in is
    known by its text. *)
Fixpoint toString (v : value) : result jsstring :=
  match v with
  | VUndefined => Returns (str "undefined")
  | VNull => Returns (str "null")
  | VBool b => Returns (str (if b then "true" else "false"))
  | VNumber n => Returns (numberToString n)
  | VString s => Returns s
  | VArray elems =>
      let element x :=
        match x with
        | VUndefined | VNull => Returns []
        | _ => toString x
        end in
      (fix join (l : list value) : result jsstring :=
         match l with
         | [] => Returns []
         | [x] => element x
         | x :: r => s ← element x; t ← join r; Returns (s ++ 44 :: t)
         end) elems
  | VObject props =>
      match ownProp (str "toString") props with
      | Some _ => Throws TypeError
      | None => Returns (str "[object Object]")
      end
  | VBuiltin text => Returns text
  end.

(** [Number(v)] *)
Definition toNumber (v : value) : result number :=
  match v with
  | VUndefined => Returns NaN
  | VNull => Returns (Finite false 0 0)
  | VBool b => Returns (Finite false (if b then 1 else 0) 0)
  | VNumber n => Returns n
  | VString s => Returns (stringToNumber s)
  | VArray _ | VObject _ | VBuiltin _ => s ← toString v; Returns (stringToNumber s)
  end.

(** ** [cleanValue] *)

Definition isNullMarker (s : jsstring) : bool :=
  bool_decide (s = str "---") || bool_decide (s = str "-") ||
  bool_decide (s = str "NIL") || bool_decide (s = str "NA") ||
  bool_decide (s = []).

(** [cleanValue(value)]: [None] is [null]. *)
Definition cleanValue (value : value) : result (option jsstring) :=
  match value with
  | VNull | VUndefined => Returns None
  | _ =>
      s ← toString value;
      let strVal := trim s in
      let strVal := removeCommas strVal in
      let strVal := trim (removeApprox strVal) in
      if isNullMarker strVal then Returns None else Returns (Some strVal)
  end.

(** ** Column names *)

(** The class [[#\-\s]]; 35 is [#] and 45 is [-]. *)
Definition isEdgeChar (c : N) : bool := (c =? 35) || (c =? 45) || isSpace c.

(** [s.replace(/^[#\-\s]+|[#\-\s]+$/g, '')]: the first alternative matches
    the run of class characters at the start, the second one the run that
    reaches the end; both are removed. *)
Definition stripEdges (s : jsstring) : jsstring :=
  dropWhileEnd isEdgeChar (dropWhile isEdgeChar s).

(** [s.replace(/\s+/g, '_')]: one underscore (95) for each maximal run;
    [inRun] says that the previous character was white space. *)
Fixpoint underscoreRuns (inRun : bool) (s : jsstring) : jsstring :=
  match s with
  | [] => []
  | c :: r =>
      if isSpace c then
        if inRun then underscoreRuns true r else 95 :: underscoreRuns true r
      else c :: underscoreRuns false r
  end.

(** The class [[a-zA-Z0-9_]]. *)
Definition isNameChar (c : N) : bool :=
  ((97 <=? c) && (c <=? 122)) || ((65 <=? c) && (c <=? 90)) ||
  ((48 <=? c) && (c <=? 57)) || (c =? 95).

(** [s.replace(/[^a-zA-Z0-9_]/g, '')] *)
Definition keepNameChars (s : jsstring) : jsstring := List.filter isNameChar s.

(** The callback of [columns.map((col, index) => ...)]. *)
Definition cleanColumn (index : nat) (col : jsstring) : jsstring :=
  let cleaned := keepNameChars (underscoreRuns false (stripEdges (trim col))) in
  match cleaned with
  | [] => str "Column_" ++ decimal (N.of_nat index + 1)
  | _ => cleaned
  end.

(** ** Reading the input *)

Definition indexKeys (n : nat) : list jsstring :=
  List.map (fun i => decimal (N.of_nat i)) (seq 0 n).

(** [Object.keys(v)]: [null] and [undefined] have no object form; a
    string and an array have their indices; other primitives have no own
    enumerable property, and neither has a built-in. *)
Definition objectKeys (v : value) : result (list jsstring) :=
  match v with
  | VUndefined | VNull => Throws TypeError
  | VBool _ | VNumber _ | VBuiltin _ => Returns []
  | VString s => Returns (indexKeys (length s))
  | VArray elems => Returns (indexKeys (length elems))
  | VObject props => Returns (List.map fst props)
  end.

(** The index a property name denotes, when it is a canonical one. *)
Definition arrayIndex (k : jsstring) : option nat :=
  match k with
  | [] => None
  | [48] => Some O
  | 48 :: _ => None
  | _ => option_map N.to_nat (wholeNumber 10 k)
  end.

Definition lengthValue {A} (l : list A) : value :=
  VNumber (finite false (N.of_nat (length l)) 0).

(** Where a property read goes on when the value has no own property of
    the name: to the prototype of a plain object, of an array, or of the
    wrapper of a string, a number or a boolean.  The properties of a
    built-in are all the host's. *)
Inductive receiver :=
| PlainObject
| ArrayObject
| StringValue
| NumberValue
| BooleanValue
| BuiltinObject (text : jsstring).

(** The library of a host: the text of the built-in that a read of the
    property [k] finds for a receiver, when it finds one; for the accessor
    [__proto__] this is the text of what its getter returns, the prototype
    of the receiver. *)
Definition host := receiver -> jsstring -> option jsstring.

Definition protoName : jsstring := str "__proto__".

(** ** [convertJsonToParsedData] *)

Inductive columnType := TString | TNumber | TDate | TBoolean.

#[global] Instance columnType_eq_dec : EqDecision columnType.
Proof. solve_decision. Defined.

(** A row of the table is a plain object, given by its own properties;
    so is [columnTypes]. *)
Record ParsedData := {
  columns : list jsstring;
  rows : list (gmap jsstring value);
  columnTypes : gmap jsstring columnType;
}.

Definition emptyData : ParsedData :=
  {| columns := []; rows := []; columnTypes := ∅ |}.

(** What [cleanValue] hands back, as a value. *)
Definition cellValue (c : option jsstring) : value :=
  match c with
  | None => VNull
  | Some s => VString s
  end.

(** [x !== null && x !== undefined] *)
Definition isPresent (v : value) : bool :=
  match v with
  | VNull | VUndefined => false
  | _ => true
  end.

(** [x !== null] *)
Definition isNotNull (v : value) : bool :=
  match v with
  | VNull => false
  | _ => true
  end.

(** The own property [k] of an object, [undefined] when it has none. *)
Definition getCell (o : gmap jsstring value) (k : jsstring) : value :=
  default VUndefined (o !! k).

(** An object that starts as [{}] and is filled by assignments: its own
    properties, and whether its prototype still is [Object.prototype]
    ([plain]) or has been set to [null]. *)
Record dictionary := {
  own : gmap jsstring value;
  plain : bool;
}.

Definition emptyObject : dictionary := {| own := ∅; plain := true |}.

(** [o[k] = v] for a value that is [null] or a primitive.  When [k] is
    [__proto__] and [o] has no such own property but inherits the accessor
    of [Object.prototype], the assignment runs its setter: [null] becomes
    the prototype of [o], a primitive is ignored.  Everywhere else the
    assignment writes an own property. *)
Definition assign (k : jsstring) (v : value) (o : dictionary) : dictionary :=
  if bool_decide (k = protoName) && plain o && bool_decide (own o !! k = None)
  then
    match v with
    | VNull => {| own := own o; plain := false |}
    | _ => o
    end
  else {| own := <[k := v]> (own o); plain := plain o |}.

(** [o[k] = v] for a primitive [v], on a plain object given by its own
    properties: the setter of [__proto__] ignores the value. *)
Definition assignPrimitive {A} (k : jsstring) (v : A) (o : gmap jsstring A)
  : gmap jsstring A :=
  if bool_decide (k = protoName) && bool_decide (o !! k = None) then o
  else <[k := v]> o.

(** [samples[col] = []] for each column.  The map gives for each name the
    array that [samples[col]] denotes: for [__proto__] the assignment
    makes the new array the prototype of [samples], and a read of
    [samples.__proto__] gives the prototype back, so that array is found
    under its name as the others are. *)
Definition emptySamples (cleanedColumns : list jsstring) : gmap jsstring (list value) :=
  fold_left (fun samples col => <[col := []]> samples) cleanedColumns ∅.

Definition isBooleanSample (val : value) : bool :=
  match val with
  | VBool _ => true
  | VString s => bool_decide (s = str "true") || bool_decide (s = str "false")
  | _ => false
  end.

Definition isNumberSample (val : value) : bool :=
  match val with
  | VNumber _ => true
  | VString s =>
      negb (isNaN (stringToNumber s)) && negb (bool_decide (trim s = []))
  | _ => false
  end.

Section Host.

Variable inherited : host.

(** What a read finds on the prototype chain. *)
Definition chainValue (r : receiver) (k : jsstring) : value :=
  match inherited r k with
  | Some text => VBuiltin text
  | None => VUndefined
  end.

(** [row[k]]: the own property, or what the prototype chain has.  A
    string and an array have their length and their elements as own
    properties. *)
Definition getProp (row : value) (k : jsstring) : result value :=
  match row with
  | VUndefined | VNull => Throws TypeError
  | VBool _ => Returns (chainValue BooleanValue k)
  | VNumber _ => Returns (chainValue NumberValue k)
  | VString s =>
      if bool_decide (k = str "length") then Returns (lengthValue s)
      else
        match arrayIndex k with
        | Some i =>
            match nth_error s i with
            | Some c => Returns (VString [c])
            | None => Returns (chainValue StringValue k)
            end
        | None => Returns (chainValue StringValue k)
        end
  | VArray elems =>
      if bool_decide (k = str "length") then Returns (lengthValue elems)
      else
        match arrayIndex k with
        | Some i =>
            match nth_error elems i with
            | Some x => Returns x
            | None => Returns (chainValue ArrayObject k)
            end
        | None => Returns (chainValue ArrayObject k)
        end
  | VObject props =>
      match ownProp k props with
      | Some v => Returns v
      | None => Returns (chainValue PlainObject k)
      end
  | VBuiltin text => Returns (chainValue (BuiltinObject text) k)
  end.

(** [o[k]] on a plain object given by its own properties. *)
Definition readPlain (o : gmap jsstring value) (k : jsstring) : value :=
  match o !! k with
  | Some v => v
  | None => chainValue PlainObject k
  end.

(** [o[k]] *)
Definition readProp (o : dictionary) (k : jsstring) : value :=
  if plain o then readPlain (own o) k else getCell (own o) k.

(** One turn of the loop in the callback of [jsonData.map(row => ...)]:
    [newRow[cleanedCol] = cleanValue(row[originalCol])]. *)
Definition cleanStep (row : value) (newRow : dictionary)
    (pair : jsstring * jsstring) : result dictionary :=
  let '(originalCol, cleanedCol) := pair in
  x ← getProp row originalCol;
  c ← cleanValue x;
  Returns (assign cleanedCol (cellValue c) newRow).

(** The callback of [jsonData.map(row => ...)]: the loop over the column
    positions pairs [columns[i]] with [cleanedColumns[i]]. *)
Definition cleanRow (columns cleanedColumns : list jsstring) (row : value)
  : result dictionary :=
  foldM (cleanStep row) (zip columns cleanedColumns) emptyObject.

(** The body of the sampling loop for one row; [alter] is
    [samples[col].push(...)], every [samples[col]] being an array. *)
Definition sampleRow (cleanedColumns : list jsstring)
    (samples : gmap jsstring (list value)) (row : dictionary)
  : gmap jsstring (list value) :=
  fold_left (fun samples col =>
               if isPresent (readProp row col)
               then alter (fun l => l ++ [readProp row col]) col samples
               else samples)
            cleanedColumns samples.

Definition collectSamples (cleanedColumns : list jsstring)
    (cleanedRows : list dictionary) : gmap jsstring (list value) :=
  let sampleSize := Nat.min 100 (length cleanedRows) in
  fold_left (sampleRow cleanedColumns) (take sampleSize cleanedRows)
            (emptySamples cleanedColumns).

(** One turn of the loop of the final pass: a cell of a column typed
    [number] that is not [null] becomes [Number(cell)].  A name that
    [columnTypes] does not hold as an own property reads as a built-in or
    as [undefined], never as the string ['number']. *)
Definition finalStep (columnTypes : gmap jsstring columnType)
    (newRow : gmap jsstring value) (col : jsstring) : result (gmap jsstring value) :=
  if bool_decide (columnTypes !! col = Some TNumber)
     && isNotNull (readPlain newRow col)
  then n ← toNumber (readPlain newRow col);
       Returns (assignPrimitive col (VNumber n) newRow)
  else Returns newRow.

(** The callback of the final [cleanedRows.map(row => ...)]; the copy
    [{ ...row }] is a plain object with the own properties of the row. *)
Definition finalRow (cleanedColumns : list jsstring)
    (columnTypes : gmap jsstring columnType) (row : dictionary)
  : result (gmap jsstring value) :=
  foldM (finalStep columnTypes) cleanedColumns (own row).

Section Convert.

(** [!isNaN(new Date(s).getTime())], the verdict of the host's date
    parser on a string. *)
Variable dateParses : jsstring -> bool.

Definition isDateSample (val : value) : bool :=
  match val with
  | VString s => dateParses s && (5 <? length s)%nat
  | _ => false
  end.

(** The chain of checks on the samples of one column. *)
Definition inferType (colSamples : list value) : columnType :=
  if (length colSamples =? 0)%nat then TString
  else
    let allBooleans := forallb isBooleanSample colSamples in
    if allBooleans then TBoolean
    else
      let allNumbers := forallb isNumberSample colSamples in
      if allNumbers then TNumber
      else
        let allDates := forallb isDateSample colSamples in
        if allDates then TDate
        else TString.

(** The loop that fills [columnTypes]; each type is a string. *)
Definition inferTypes (cleanedColumns : list jsstring)
    (samples : gmap jsstring (list value)) : gmap jsstring columnType :=
  fold_left (fun (columnTypes : gmap jsstring columnType) col =>
               assignPrimitive col (inferType (default [] (samples !! col)))
                 columnTypes)
            cleanedColumns ∅.

Definition convertJsonToParsedData (jsonData : list value) : result ParsedData :=
  match jsonData with
  | [] => Returns emptyData
  | firstRow :: _ =>
      keys ← objectKeys firstRow;
      let columns := List.filter (fun key : jsstring => true) keys in
      if (length columns =? 0)%nat then Returns emptyData
      else
        let cleanedColumns := imap cleanColumn columns in
        cleanedRows ← mapM (cleanRow columns cleanedColumns) jsonData;
        let columnTypes :=
          if (0 <? length cleanedRows)%nat
          then inferTypes cleanedColumns
                 (collectSamples cleanedColumns cleanedRows)
          else ∅ in
        finalRows ← mapM (finalRow cleanedColumns columnTypes) cleanedRows;
        Returns {| columns := cleanedColumns;
                   rows := finalRows;
                   columnTypes := columnTypes |}
  end.

End Convert.

End Host.

(** A string-valued property of an input record. *)
Definition prop (k v : string) : jsstring * value := (str k, VString (str v)).
Arguments prop (k v)%_string.

(** ** The response of the extraction service *)

(** [ToBoolean(v)] *)
Definition truthy (v : value) : bool :=
  match v with
  | VUndefined | VNull => false
  | VBool b => b
  | VNumber NaN => false
  | VNumber (Infinity _) => true
  | VNumber (Finite _ m _) => negb (m =? 0)
  | VString [] => false
  | VString _ => true
  | VArray _ | VObject _ | VBuiltin _ => true
  end.

(** [Array.isArray(v)]; [JSON.parse] builds no built-in. *)
Definition isArray (v : value) : bool :=
  match v with
  | VArray _ => true
  | _ => false
  end.

(** The atoms of a literal piece of a regular expression. *)
Definition literal (s : jsstring) : list atom := List.map (fun x c => c =? x) s.

(** [[\s\S]*\]] followed by a continuation: the longest prefix of [s] that
    ends with a closing bracket (93) and whose remainder satisfies
    [next]; the star is greedy, so the last such bracket wins. *)
Fixpoint lastClose (next : jsstring -> bool) (s : jsstring) : option jsstring :=
  match s with
  | [] => None
  | c :: r =>
      match lastClose next r with
      | Some m => Some (c :: m)
      | None => if (c =? 93) && next r then Some [c] else None
      end
  end.

(** [\s*```] at the start of a string. *)
Definition closesFence (r : jsstring) : bool :=
  match matchPrefix (literal (str "```")) (dropWhile isSpace r) with
  | Some _ => true
  | None => false
  end.

(** The capture of [/```(?:json)?\s*(\[[\s\S]*\])\s*```/] for a match that
    starts at the start of [s]; 91 is the opening bracket. *)
Definition fencedAt (s : jsstring) : option jsstring :=
  match matchPrefix (literal (str "```")) s with
  | Some r =>
      let r := match matchPrefix (literal (str "json")) r with
               | Some r' => r'
               | None => r
               end in
      match dropWhile isSpace r with
      | 91 :: body =>
          match lastClose closesFence body with
          | Some m => Some (91 :: m)
          | None => None
          end
      | _ => None
      end
  | None => None
  end.

(** The capture of [/(\[[\s\S]*\])/] for a match at the start of [s]. *)
Definition bareAt (s : jsstring) : option jsstring :=
  match s with
  | 91 :: body =>
      match lastClose (fun _ => true) body with
      | Some m => Some (91 :: m)
      | None => None
      end
  | _ => None
  end.

(** [s.match(re)]: the match at the leftmost position that has one. *)
Fixpoint firstMatch (matchAt : jsstring -> option jsstring) (s : jsstring)
  : option jsstring :=
  match matchAt s with
  | Some m => Some m
  | None =>
      match s with
      | [] => None
      | _ :: r => firstMatch matchAt r
      end
  end.

(** [jsonText.match(/```(?:json)?\s*(\[[\s\S]*\])\s*```/)[1]] *)
Definition fencedArray (jsonText : jsstring) : option jsstring :=
  firstMatch fencedAt jsonText.

(** [jsonText.match(/(\[[\s\S]*\])/)[1]] *)
Definition bareArray (jsonText : jsstring) : option jsstring :=
  firstMatch bareAt jsonText.

Section Response.

(** [JSON.parse], [None] when it throws. *)
Variable jsonParse : jsstring -> option value.

(** The inner [try]/[catch] on the text of the response: the whole text,
    then the array inside a markdown fence, then the outermost brackets;
    [None] when the [catch] block throws. *)
Definition parseJsonText (jsonText : jsstring) : option value :=
  match jsonParse jsonText with
  | Some jsonData =>
      Some (if isArray jsonData then jsonData else VArray [jsonData])
  | None =>
      match fencedArray jsonText with
      | Some jsonMatch => jsonParse jsonMatch
      | None =>
          match bareArray jsonText with
          | Some arrayMatch => jsonParse arrayMatch
          | None => None
          end
      end
  end.

(** What both extraction functions do with [response.text]; [None] is a
    missing text.  The outer [catch] turns every exception into [[]]. *)
Definition tableFromText (text : option jsstring) : value :=
  match text with
  | None | Some [] => VArray []
  | Some jsonText =>
      if bool_decide (trim jsonText = []) then VArray []
      else
        match parseJsonText jsonText with
        | Some jsonData => if truthy jsonData then jsonData else VArray []
        | None => VArray []
        end
  end.

(** [extractTableFromPDFBuffer]: [apiKey] says whether the key is
    configured, [response] is what the call to the service gives, [None]
    when it fails. *)
Definition extractTableFromPDFBuffer (apiKey : bool)
    (response : option (option jsstring)) : value :=
  if negb apiKey then VArray []
  else
    match response with
    | None => VArray []
    | Some text => tableFromText text
    end.

(** [extractTableFromPDF]: the file has to exist and to be read as
    well. *)
Definition extractTableFromPDF (apiKey fileExists fileRead : bool)
    (response : option (option jsstring)) : value :=
  if negb apiKey then VArray []
  else if negb fileExists then VArray []
  else if negb fileRead then VArray []
  else
    match response with
    | None => VArray []
    | Some text => tableFromText text
    end.

End Response.

(** * Vocabulary of the statements *)

(** The text of a value after the rewriting steps of [cleanValue]. *)
Definition cleanText (s : jsstring) : jsstring :=
  trim (removeApprox (removeCommas (trim s))).

(** The strings [cleanValue] lets through. *)
Definition cleanString (s : jsstring) : Prop :=
  s <> [] /\ (44 ∉ s) /\
  (forall c, head s = Some c -> isSpace c = false) /\
  (forall c, last s = Some c -> isSpace c = false).

(** A name over [[a-zA-Z0-9_]]. *)
Definition nameString (s : jsstring) : Prop := Forall (fun c => isNameChar c = true) s.

(** The cell computed for the original key [k] of an input row. *)
Definition cleanCell (h : host) (row : value) (k : jsstring)
  : result (option jsstring) :=
  x ← getProp h row k; cleanValue x.

(** A cell of a cleaned row: [null] or a string that [cleanValue] lets
    through. *)
Definition cleanedCell (v : value) : Prop :=
  v = VNull \/ exists s, v = VString s /\ cleanString s.

(** A cell that is [null], a string or a number. *)
Definition scalarCell (v : value) : Prop :=
  match v with
  | VNull | VString _ | VNumber _ => True
  | _ => False
  end.

(** What the final pass makes of a cell of a column typed [number]. *)
Definition coerceCell (v : value) : value :=
  match v with
  | VString s => VNumber (stringToNumber s)
  | _ => v
  end.

(** Is [col] a column that the pass over [cols] turns into numbers? *)
Definition coerced (columnTypes : gmap jsstring columnType)
    (cols : list jsstring) (col : jsstring) : bool :=
  bool_decide (col ∈ cols) && bool_decide (columnTypes !! col = Some TNumber).

(** The values pushed onto [samples[col]] while one row is visited: one
    for each occurrence of [col] among the column names. *)
Fixpoint pushes (col : jsstring) (cols : list jsstring) (v : value) : list value :=
  match cols with
  | [] => []
  | c :: r => if bool_decide (c = col) then v :: pushes col r v else pushes col r v
  end.

(** The values one row adds to the samples of [col]. *)
Definition rowPushes (h : host) (cols : list jsstring) (col : jsstring)
    (row : dictionary) : list value :=
  if isPresent (readProp h row col) then pushes col cols (readProp h row col)
  else [].

(** The non-null cleaned values of a column in the given rows. *)
Definition sampleOf (col : jsstring) (rows : list (gmap jsstring value)) : list value :=
  List.filter isPresent (List.map (fun row => getCell row col) rows).

(** The candidate types in their order of precedence, each with the
    test a sampled value has to pass. *)
Definition candidates (dp : jsstring -> bool) : list (columnType * (value -> bool)) :=
  [(TBoolean, isBooleanSample); (TNumber, isNumberSample);
   (TDate, isDateSample dp); (TString, fun _ => true)].

(** The first candidate that every sampled value passes; [string] when
    nothing was sampled. *)
Definition firstQualifying (dp : jsstring -> bool) (sample : list value) : columnType :=
  match sample with
  | [] => TString
  | _ =>
      match List.find (fun c => forallb c.2 sample) (candidates dp) with
      | Some c => c.1
      | None => TString
      end
  end.

(** The cells of the rows after the cleaning pass, before types are
    inferred: the own properties of each cleaned row. *)
Definition cleanedRowsOf (h : host) (jsonData : list value)
  : result (list (gmap jsstring value)) :=
  match jsonData with
  | [] => Returns []
  | firstRow :: _ =>
      keys ← objectKeys firstRow;
      match mapM (cleanRow h keys (imap cleanColumn keys)) jsonData with
      | Returns cleanedRows => Returns (own <$> cleanedRows)
      | Throws e => Throws e
      end
  end.

(** The three ways [convertJsonToParsedData] returns. *)
Inductive converted (h : host) (dp : jsstring -> bool) (jsonData : list value)
    (t : ParsedData) : Prop :=
| conv_no_rows :
    jsonData = [] -> t = emptyData -> converted h dp jsonData t
| conv_no_columns firstRow rest :
    jsonData = firstRow :: rest ->
    objectKeys firstRow = Returns [] ->
    t = emptyData -> converted h dp jsonData t
| conv_table firstRow rest keys cleanedRows finalRows :
    jsonData = firstRow :: rest ->
    objectKeys firstRow = Returns keys ->
    keys <> [] ->
    mapM (cleanRow h keys (imap cleanColumn keys)) jsonData = Returns cleanedRows ->
    mapM (finalRow h (imap cleanColumn keys)
            (inferTypes dp (imap cleanColumn keys)
               (collectSamples h (imap cleanColumn keys) cleanedRows)))
         cleanedRows = Returns finalRows ->
    t = {| columns := imap cleanColumn keys;
           rows := finalRows;
           columnTypes := inferTypes dp (imap cleanColumn keys)
                            (collectSamples h (imap cleanColumn keys) cleanedRows) |} ->
    converted h dp jsonData t.

(** The text that V8 gives for a built-in function. *)
Definition nativeFunction (name : string) : jsstring :=
  str "function " ++ str name ++ str "() { [native code] }".
Arguments nativeFunction name%_string.

(** The methods of [Object.prototype]. *)
Definition objectMethods : list string :=
  ["__defineGetter__"; "__defineSetter__"; "hasOwnProperty";
   "__lookupGetter__"; "__lookupSetter__"; "isPrototypeOf";
   "propertyIsEnumerable"; "toString"; "valueOf"; "toLocaleString"]%string.

(** An example host, after Node.js: what every receiver inherits from
    [Object.prototype], with its own constructor and prototype.  The
    methods that the other prototypes add are left out. *)
Definition objectLibrary : host := fun r k =>
  if bool_decide (k = protoName) then
    Some (match r with
          | PlainObject => str "[object Object]"
          | ArrayObject | StringValue => []
          | NumberValue => str "0"
          | BooleanValue => str "false"
          | BuiltinObject _ => nativeFunction ""
          end)
  else if bool_decide (k = str "constructor") then
    Some (match r with
          | PlainObject => nativeFunction "Object"
          | ArrayObject => nativeFunction "Array"
          | StringValue => nativeFunction "String"
          | NumberValue => nativeFunction "Number"
          | BooleanValue => nativeFunction "Boolean"
          | BuiltinObject _ => nativeFunction "Function"
          end)
  else
    match List.find (fun name => bool_decide (k = str name)) objectMethods with
    | Some name => Some (nativeFunction name)
    | None => None
    end.

(** A date parser that accepts the form [YYYY-MM-DD] and nothing else. *)
Definition isoDay (s : jsstring) : bool :=
  match s with
  | [y1; y2; y3; y4; 45; m1; m2; 45; d1; d2] =>
      forallb isDigit [y1; y2; y3; y4; m1; m2; d1; d2]
      && (1 <=? digitsN [m1; m2]) && (digitsN [m1; m2] <=? 12)
      && (1 <=? digitsN [d1; d2]) && (digitsN [d1; d2] <=? 31)
  | _ => false
  end.

(** The input of the end-to-end example: a column named [#]. *)
Definition hashInput : list value :=
  [VObject [prop "#" "1"; prop "Name" "Ravi Kumar"]].

(** What the conversion makes of it; the type of [Name] is the host's
    verdict on ["Ravi Kumar"]. *)
Definition hashTable (dp : jsstring -> bool) : ParsedData :=
  {| columns := [str "Column_1"; str "Name"];
     rows := [ {[ str "Column_1" := VNumber (Finite false 1 0);
                  str "Name" := VString (str "Ravi Kumar") ]} ];
     columnTypes :=
       {[ str "Column_1" := TNumber;
          str "Name" := if dp (str "Ravi Kumar") then TDate else TString ]} |}.

(** An input with a boolean, a numeric, a date and a mixed column. *)
Definition mixedInput : list value :=
  [VObject [prop "Paid" "true"; prop "Amount " "237,706";
            prop "Due" "2024-01-31"; prop "Note" "12"];
   VObject [prop "Paid" "false"; prop "Amount " "NIL";
            prop "Due" "2024-02-29"; prop "Note" "n/a"]].

(** Its table, for the date parser [isoDay]. *)
Definition mixedTable : ParsedData :=
  {| columns := [str "Paid"; str "Amount"; str "Due"; str "Note"];
     rows :=
       [ {[ str "Paid" := VString (str "true");
            str "Amount" := VNumber (Finite false 237706 0);
            str "Due" := VString (str "2024-01-31");
            str "Note" := VString (str "12") ]};
         {[ str "Paid" := VString (str "false");
            str "Amount" := VNull;
            str "Due" := VString (str "2024-02-29");
            str "Note" := VString (str "n/a") ]} ];
     columnTypes :=
       {[ str "Paid" := TBoolean; str "Amount" := TNumber;
          str "Due" := TDate; str "Note" := TString ]} |}.

(** Two keys with the same sanitized name. *)
Definition clashInput : list value :=
  [VObject [prop "a" "1"; prop "a#" "2"]; VObject [prop "a#" "5"]].

(** Its table: one column name twice, each row with the cell of the
    later key. *)
Definition clashTable : ParsedData :=
  {| columns := [str "a"; str "a"];
     rows := [ {[ str "a" := VNumber (Finite false 2 0) ]};
               {[ str "a" := VNumber (Finite false 5 0) ]} ];
     columnTypes := {[ str "a" := TNumber ]} |}.

(** More than a hundred rows: a numeric column whose last cell is text. *)
Definition lateTextInput : list value :=
  replicate 100 (VObject [prop "n" "1"]) ++ [VObject [prop "n" "abc"]].

(** Its table: the column is typed from the first hundred rows. *)
Definition lateTextTable : ParsedData :=
  {| columns := [str "n"];
     rows := replicate 100 {[ str "n" := VNumber (Finite false 1 0) ]}
             ++ [ {[ str "n" := VNumber NaN ]} ];
     columnTypes := {[ str "n" := TNumber ]} |}.

(** The table of a first record with the keys [Name] and [Amount ] and a
    second record without the second key. *)
Definition shortTable : ParsedData :=
  {| columns := [str "Name"; str "Amount"];
     rows := [ {[ str "Name" := VString (str "Ravi");
                  str "Amount" := VNumber (Finite false 12 0) ]};
               {[ str "Name" := VString (str "Asha"); str "Amount" := VNull ]} ];
     columnTypes := {[ str "Name" := TString; str "Amount" := TNumber ]} |}.

(** [String(v)] returns. *)
Definition coercible (v : value) : bool :=
  match toString v with
  | Returns _ => true
  | Throws _ => false
  end.

(** A row that can be read: not [null] or [undefined], and holding no
    value that [String] fails on; an input holds no built-in. *)
Definition readableRow (row : value) : bool :=
  match row with
  | VUndefined | VNull | VBuiltin _ => false
  | VBool _ | VNumber _ | VString _ => true
  | VArray elems => forallb coercible elems
  | VObject props => forallb (fun p => coercible p.2) props
  end.

(** Rows of several kinds: a record with an array and a nested object as
    values, a string, a boolean and an array. *)
Definition motleyInput : list value :=
  [VObject [prop "a" "1";
            (str "b", VArray [VNumber (Finite false 15 (-1)); VNull; VBool true]);
            (str "c", VObject [prop "d" "x"])];
   VString (str "xy");
   VBool true;
   VArray [VString (str "p")]].

(** Two rows in which a read of each of the given keys gives the same. *)
Definition agreeOn (h : host) (keys : list jsstring) (r r' : value) : Prop :=
  forall k, k ∈ keys -> getProp h r k = getProp h r' k.

(** A key named [__proto__]. *)
Definition protoInput : list value :=
  [VObject [prop "__proto__" "1"; prop "a" "2"]].

(** Its table: the column has no cell and no type. *)
Definition protoTable : ParsedData :=
  {| columns := [str "__proto__"; str "a"];
     rows := [ {[ str "a" := VNumber (Finite false 2 0) ]} ];
     columnTypes := {[ str "a" := TNumber ]} |}.

(** A second record without the key [constructor] of the first. *)
Definition constructorInput : list value :=
  [VObject [prop "constructor" "1"]; VObject []].

(** Its table on the example host: the second row holds the text of the
    function [Object], which the record inherits under that name. *)
Definition constructorTable : ParsedData :=
  {| columns := [str "constructor"];
     rows := [ {[ str "constructor" := VString (str "1") ]};
               {[ str "constructor" := VString (nativeFunction "Object") ]} ];
     columnTypes := {[ str "constructor" := TString ]} |}.

(** What the specification says of [(Approx.)]: the literal, parentheses
    and dot included (40, 46 and 41), in either case. *)
Definition approxLiteral : list atom :=
  [(fun c => c =? 40);
   letterI 65; letterI 80; letterI 80; letterI 82; letterI 79; letterI 88;
   (fun c => c =? 46); (fun c => c =? 41)].

(** Every occurrence of a pattern removed, from left to right; [fuel]
    bounds the length of the string. *)
Fixpoint removeAll (fuel : nat) (re : list atom) (s : jsstring) : jsstring :=
  match fuel with
  | O => s
  | S fuel' =>
      match matchPrefix re s with
      | Some rest => removeAll fuel' re rest
      | None =>
          match s with
          | [] => []
          | c :: r => c :: removeAll fuel' re r
          end
      end
  end.

(** The text that the specification tests against the markers: trimmed,
    without commas, without the literal [(Approx.)] wherever it occurs,
    and trimmed again. *)
Definition specifiedText (s : jsstring) : jsstring :=
  let t := removeCommas (trim s) in
  trim (removeAll (S (length t)) approxLiteral t).

(** The elements of an array; no element for another value. *)
Definition arrayElements (v : value) : list value :=
  match v with
  | VArray elems => elems
  | _ => []
  end.

(** One step of reading a decimal numeral from the left. *)
Definition digitStep (acc c : N) : N := acc * 10 + (c - 48).

(** The digits, dot and exponent that [Number::toString] writes for the
    mantissa [m] and the exponent [e], without the sign. *)
Definition unsignedText (m : N) (e : Z) : jsstring :=
  let ds := decimal m in
  let k := Z.of_nat (length ds) in
  let n := (k + e)%Z in
  if (k <=? n)%Z && (n <=? 21)%Z then ds ++ zeros (Z.to_nat (n - k))
  else if (0 <? n)%Z && (n <=? 21)%Z then
    firstn (Z.to_nat n) ds ++ 46 :: skipn (Z.to_nat n) ds
  else if (-6 <? n)%Z && (n <=? 0)%Z then
    48 :: 46 :: zeros (Z.to_nat (- n)) ++ ds
  else
    match ds with
    | [d] => d :: 101 :: exponentText (n - 1)
    | d :: rest => d :: 46 :: rest ++ 101 :: exponentText (n - 1)
    | [] => []
    end.

(** A number in the form the model keeps it: no trailing zero in the
    mantissa, and zero as [Finite false 0 0]. *)
Definition canonical (x : number) : bool :=
  match x with
  | Finite neg m e =>
      if m =? 0 then negb neg && (e =? 0)%Z else negb (m mod 10 =? 0)
  | _ => true
  end.

(** The characters of the text of a finite number. *)
Definition numberChar (c : N) : bool :=
  isDigit c || (c =? 46) || (c =? 101) || (c =? 43) || (c =? 45).

(** A second input of more than a hundred rows, equal to
    [lateTextInput] but for its last record. *)
Definition lateDigitInput : list value :=
  replicate 100 (VObject [prop "n" "1"]) ++ [VObject [prop "n" "7"]].

(** Its table. *)
Definition lateDigitTable : ParsedData :=
  {| columns := [str "n"];
     rows := replicate 100 {[ str "n" := VNumber (Finite false 1 0) ]}
             ++ [ {[ str "n" := VNumber (Finite false 7 0) ]} ];
     columnTypes := {[ str "n" := TNumber ]} |}.

(** A stand-in for [JSON.parse] in the examples: it knows the texts
    [null] and [[]] only. *)
Definition tinyJson (s : jsstring) : option value :=
  if bool_decide (s = str "null") then Some VNull
  else if bool_decide (s = str "[]") then Some (VArray [])
  else None.

(** * Properties *)

(** ** Results *)

Lemma bind_Returns {A B} (r : result A) (k : A -> result B) (b : B) :
  (r ≫= k) = Returns b <-> exists a, r = Returns a /\ k a = Returns b.
Proof.
  destruct r as [a|e]; simpl; split.
  - intros H. exists a. auto.
  - intros (a' & Ha & Hk). injection Ha as ->. exact Hk.
  - discriminate.
  - intros (a' & Ha & _). discriminate.
Qed.

Lemma mapM_Returns {A B} (f : A -> result B) (l : list A) (l' : list B) :
  mapM f l = Returns l' <-> Forall2 (fun x y => f x = Returns y) l l'.
Proof.
  revert l'. induction l as [|x l IH]; intros l'; simpl.
  - split.
    + intros H. injection H as <-. constructor.
    + intros H. inversion H. reflexivity.
  - rewrite bind_Returns. split.
    + intros (y & Hy & H). apply bind_Returns in H as (ys & Hys & H).
      injection H as <-. constructor; [exact Hy | apply IH, Hys].
    + intros H. inversion H as [|? y ? ys Hy Hys]; subst.
      exists y. split; [exact Hy|]. apply bind_Returns.
      exists ys. split; [apply IH, Hys | reflexivity].
Qed.

(** ** Strings *)

Lemma dropWhile_head (p : N -> bool) (s : jsstring) (c : N) :
  head (dropWhile p s) = Some c -> p c = false.
Proof.
  induction s as [|x s IH]; simpl; [discriminate|].
  destruct (p x) eqn:Hx; [exact IH|].
  simpl. intros H. injection H as <-. exact Hx.
Qed.

Lemma dropWhile_suffix (p : N -> bool) (s : jsstring) :
  exists pre, s = pre ++ dropWhile p s.
Proof.
  induction s as [|x s (pre & IH)]; simpl.
  - exists []. reflexivity.
  - destruct (p x).
    + exists (x :: pre). simpl. f_equal. exact IH.
    + exists []. reflexivity.
Qed.

Lemma dropWhile_id (p : N -> bool) (s : jsstring) :
  (forall c, head s = Some c -> p c = false) -> dropWhile p s = s.
Proof.
  destruct s as [|x s]; simpl; [reflexivity|].
  intros H. rewrite (H x eq_refl). reflexivity.
Qed.

Lemma last_rev_head (s : jsstring) : last s = head (rev s).
Proof.
  induction s as [|x s IH] using rev_ind; [reflexivity|].
  rewrite last_snoc, rev_app_distr. reflexivity.
Qed.

Lemma dropWhileEnd_last (p : N -> bool) (s : jsstring) (c : N) :
  last (dropWhileEnd p s) = Some c -> p c = false.
Proof.
  unfold dropWhileEnd. rewrite last_rev_head, rev_involutive.
  apply dropWhile_head.
Qed.

Lemma dropWhileEnd_prefix (p : N -> bool) (s : jsstring) :
  exists suf, s = dropWhileEnd p s ++ suf.
Proof.
  unfold dropWhileEnd.
  destruct (dropWhile_suffix p (rev s)) as (pre & H).
  exists (rev pre).
  rewrite <- rev_app_distr, <- H, rev_involutive. reflexivity.
Qed.

Lemma dropWhileEnd_id (p : N -> bool) (s : jsstring) :
  (forall c, last s = Some c -> p c = false) -> dropWhileEnd p s = s.
Proof.
  intros H. unfold dropWhileEnd. rewrite dropWhile_id.
  - apply rev_involutive.
  - intros c Hc. apply H. rewrite last_rev_head. exact Hc.
Qed.

Lemma dropWhileEnd_head (p : N -> bool) (s : jsstring) (c : N) :
  head (dropWhileEnd p s) = Some c -> head s = Some c.
Proof.
  destruct (dropWhileEnd_prefix p s) as (suf & H).
  destruct (dropWhileEnd p s) as [|x t] eqn:E; [discriminate|].
  rewrite H. simpl. auto.
Qed.

Lemma trim_head (s : jsstring) (c : N) :
  head (trim s) = Some c -> isSpace c = false.
Proof.
  unfold trim. intros H. apply dropWhileEnd_head in H.
  exact (dropWhile_head _ _ _ H).
Qed.

Lemma trim_last (s : jsstring) (c : N) :
  last (trim s) = Some c -> isSpace c = false.
Proof. apply dropWhileEnd_last. Qed.

Lemma trim_elem (s : jsstring) (c : N) : c ∈ trim s -> c ∈ s.
Proof.
  unfold trim. intros H.
  destruct (dropWhileEnd_prefix isSpace (dropWhile isSpace s)) as (suf & H1).
  destruct (dropWhile_suffix isSpace s) as (pre & H2).
  rewrite H2, H1, !elem_of_app. auto.
Qed.

Lemma trim_id (s : jsstring) :
  (forall c, head s = Some c -> isSpace c = false) ->
  (forall c, last s = Some c -> isSpace c = false) ->
  trim s = s.
Proof.
  intros Hh Hl. unfold trim. rewrite (dropWhile_id _ _ Hh).
  apply dropWhileEnd_id, Hl.
Qed.

Lemma matchPrefix_suffix (re : list atom) (s rest : jsstring) :
  matchPrefix re s = Some rest -> exists m, s = m ++ rest.
Proof.
  revert s. induction re as [|a re IH]; intros s; simpl.
  - intros H. injection H as <-. exists []. reflexivity.
  - destruct s as [|c r]; [discriminate|].
    destruct (a c); [|discriminate].
    intros H. destruct (IH _ H) as (m & ->). exists (c :: m). reflexivity.
Qed.

Lemma removeFirst_elem (re : list atom) (s : jsstring) (c : N) :
  c ∈ removeFirst re s -> c ∈ s.
Proof.
  induction s as [|x s IH]; simpl.
  - destruct (matchPrefix re []) as [rest|] eqn:E; [|auto].
    apply matchPrefix_suffix in E as (m & E).
    symmetry in E. apply app_eq_nil in E as [_ ->]. auto.
  - destruct (matchPrefix re (x :: s)) as [rest|] eqn:E.
    + apply matchPrefix_suffix in E as (m & ->).
      intros H. apply elem_of_app. right. exact H.
    + rewrite !elem_of_cons. intros [->|H]; auto.
Qed.

Lemma removeCommas_elem (s : jsstring) : 44 ∉ removeCommas s.
Proof.
  unfold removeCommas. intros H.
  apply list_elem_of_In, filter_In in H as [_ H]. discriminate.
Qed.

Lemma isNullMarker_spec (s : jsstring) :
  isNullMarker s = true <->
  s = str "---" \/ s = str "-" \/ s = str "NIL" \/ s = str "NA" \/ s = [].
Proof.
  unfold isNullMarker.
  rewrite !orb_true_iff, !bool_decide_eq_true. tauto.
Qed.

Lemma cleanValue_unfold (v : value) :
  isPresent v = true ->
  cleanValue v =
  s ← toString v;
  if isNullMarker (cleanText s) then Returns None else Returns (Some (cleanText s)).
Proof. destruct v; try discriminate; reflexivity. Qed.

Lemma cleanText_clean (s : jsstring) :
  isNullMarker (cleanText s) = false -> cleanString (cleanText s).
Proof.
  intros H. repeat split.
  - intros E. rewrite E in H. discriminate.
  - unfold cleanText. intros Hc.
    apply trim_elem, removeFirst_elem in Hc.
    exact (removeCommas_elem _ Hc).
  - apply trim_head.
  - apply trim_last.
Qed.

Lemma cleanValue_Some (v : value) (s : jsstring) :
  cleanValue v = Returns (Some s) -> cleanString s.
Proof.
  destruct (isPresent v) eqn:Hv.
  - rewrite (cleanValue_unfold _ Hv), bind_Returns.
    intros (t & _ & H).
    destruct (isNullMarker (cleanText t)) eqn:E; [discriminate|].
    injection H as <-. apply cleanText_clean, E.
  - destruct v; discriminate.
Qed.

(** C6.  The four sample values of the claim come out as it says.  The
    test it states fails where [(Approx.)] follows a marker or stands
    alone: the text that the specification tests, with the literal
    removed, is then the marker ["NIL"] or the empty string, for which the
    claim says [null]; [cleanValue] returns the strings ["NIL ()"] and
    ["()"], because the replacement leaves the parentheses. *)
Theorem cleanValue_keeps_marker_before_approx :
  cleanValue (VString (str "NIL (Approx.)")) = Returns (Some (str "NIL ()"))
  /\ specifiedText (str "NIL (Approx.)") = str "NIL"
  /\ cleanValue (VString (str "(Approx.)")) = Returns (Some (str "()"))
  /\ specifiedText (str "(Approx.)") = []
  /\ cleanValue (VString (str "237,706")) = Returns (Some (str "237706"))
  /\ cleanValue (VString (str "NIL")) = Returns None
  /\ cleanValue (VString (str "  ")) = Returns None
  /\ cleanValue VNull = Returns None.
Proof. vm_compute. repeat split. Qed.

(** C1.  On ["1,234 (Approx.)"] the replacement leaves the parentheses:
    the pattern [/(Approx.)/i] matches [Approx.] without them, and
    [cleanValue] returns ["1234 ()"]; a second occurrence stays whole. *)
Theorem cleanValue_approx_leaves_parentheses :
  cleanValue (VString (str "1,234 (Approx.)")) = Returns (Some (str "1234 ()"))
  /\ cleanValue (VString (str "(Approx.) 5 (approx.)"))
     = Returns (Some (str "() 5 (approx.)")).
Proof. vm_compute. auto. Qed.

(** ** Column names *)

Lemma isNameChar_range (c : N) : isNameChar c = true -> 48 <= c <= 122.
Proof.
  unfold isNameChar.
  rewrite !orb_true_iff, !andb_true_iff, !N.leb_le, N.eqb_eq. lia.
Qed.

Ltac outside_range c :=
  repeat match goal with
  | |- context [c =? ?k] =>
      replace (c =? k) with false by (symmetry; apply N.eqb_neq; lia)
  | |- context [?k <=? c] =>
      replace (k <=? c) with false by (symmetry; apply N.leb_gt; lia)
  end.

Lemma nameChar_not_space (c : N) : isNameChar c = true -> isSpace c = false.
Proof.
  intros H%isNameChar_range.
  unfold isSpace, isWhiteSpace, isLineTerminator.
  outside_range c. reflexivity.
Qed.

Lemma nameChar_not_edge (c : N) : isNameChar c = true -> isEdgeChar c = false.
Proof.
  intros H. unfold isEdgeChar. rewrite (nameChar_not_space c H).
  apply isNameChar_range in H. outside_range c. reflexivity.
Qed.

Lemma nameString_head (s : jsstring) (c : N) :
  nameString s -> head s = Some c -> isNameChar c = true.
Proof.
  intros H Hc. destruct s as [|x s]; [discriminate|].
  injection Hc as <-. exact (Forall_inv H).
Qed.

Lemma nameString_last (s : jsstring) (c : N) :
  nameString s -> last s = Some c -> isNameChar c = true.
Proof.
  intros H Hc. apply last_Some in Hc as (pre & ->).
  apply Forall_app in H as [_ H]. exact (Forall_inv H).
Qed.

Lemma trim_nameString (s : jsstring) : nameString s -> trim s = s.
Proof.
  intros H. apply trim_id; intros c Hc; apply nameChar_not_space.
  - exact (nameString_head _ _ H Hc).
  - exact (nameString_last _ _ H Hc).
Qed.

Lemma stripEdges_nameString (s : jsstring) : nameString s -> stripEdges s = s.
Proof.
  intros H. unfold stripEdges. rewrite dropWhile_id.
  - apply dropWhileEnd_id. intros c Hc.
    apply nameChar_not_edge, (nameString_last _ _ H Hc).
  - intros c Hc. apply nameChar_not_edge, (nameString_head _ _ H Hc).
Qed.

Lemma underscoreRuns_nameString (s : jsstring) :
  nameString s -> underscoreRuns false s = s.
Proof.
  induction 1 as [|c s Hc _ IH]; simpl; [reflexivity|].
  rewrite (nameChar_not_space c Hc), IH. reflexivity.
Qed.

Lemma keepNameChars_nameString (s : jsstring) :
  nameString s -> keepNameChars s = s.
Proof.
  induction 1 as [|c s Hc _ IH]; simpl; [reflexivity|].
  rewrite Hc. f_equal. exact IH.
Qed.

Lemma keepNameChars_is_nameString (s : jsstring) : nameString (keepNameChars s).
Proof.
  apply Forall_forall. intros c Hc.
  apply list_elem_of_In, filter_In in Hc as [_ Hc]. exact Hc.
Qed.

Lemma uintDigits_nameString (u : Decimal.uint) : nameString (uintDigits u).
Proof. induction u; simpl; constructor; auto. Qed.

Lemma cleanColumn_nameString (index : nat) (col : jsstring) :
  nameString (cleanColumn index col) /\ cleanColumn index col <> [].
Proof.
  unfold cleanColumn.
  destruct (keepNameChars _) as [|c r] eqn:E.
  - split; [|discriminate].
    apply Forall_app. split.
    + vm_compute. repeat constructor.
    + apply uintDigits_nameString.
  - split; [|discriminate]. rewrite <- E. apply keepNameChars_is_nameString.
Qed.

(** C8.  Sanitizing a name that the sanitization produced gives the same
    name back, whatever the positions of the two columns. *)
Theorem cleanColumn_idempotent (i j : nat) (col : jsstring) :
  cleanColumn j (cleanColumn i col) = cleanColumn i col.
Proof.
  destruct (cleanColumn_nameString i col) as [Hn He].
  set (name := cleanColumn i col) in *.
  unfold cleanColumn at 1.
  rewrite (trim_nameString _ Hn), (stripEdges_nameString _ Hn),
    (underscoreRuns_nameString _ Hn), (keepNameChars_nameString _ Hn).
  destruct name; [contradiction|reflexivity].
Qed.

(** ** Assignments *)

Lemma assign_lookup_ne (k c : jsstring) (v : value) (o : dictionary) :
  k <> c -> own (assign k v o) !! c = own o !! c.
Proof.
  intros Hne. unfold assign.
  destruct (_ && _); [destruct v; reflexivity|].
  apply lookup_insert_ne. exact Hne.
Qed.

Lemma assign_lookup_eq (c : jsstring) (v : value) (o : dictionary) :
  c <> protoName -> own (assign c v o) !! c = Some v.
Proof.
  intros Hne. unfold assign. rewrite (bool_decide_eq_false_2 _ Hne).
  apply lookup_insert_eq.
Qed.

(** An assignment removes no own property. *)
Lemma assign_keeps (k c : jsstring) (v : value) (o : dictionary) :
  is_Some (own o !! c) -> is_Some (own (assign k v o) !! c).
Proof.
  intros [w Hw]. destruct (decide (k = c)) as [->|Hne].
  - unfold assign. rewrite Hw.
    rewrite (bool_decide_eq_false_2 (Some w = None)) by discriminate.
    rewrite andb_false_r. cbn [own]. rewrite lookup_insert_eq. eauto.
  - rewrite assign_lookup_ne by exact Hne. eauto.
Qed.

(** An assignment adds no own property but the one it names. *)
Lemma assign_adds (k c : jsstring) (v : value) (o : dictionary) :
  is_Some (own (assign k v o) !! c) -> c = k \/ is_Some (own o !! c).
Proof.
  destruct (decide (k = c)) as [->|Hne]; [auto|].
  rewrite assign_lookup_ne by exact Hne. auto.
Qed.

Lemma assign_cells (k : jsstring) (v : value) (o : dictionary) :
  cleanedCell v ->
  map_Forall (fun _ x => cleanedCell x) (own o) ->
  map_Forall (fun _ x => cleanedCell x) (own (assign k v o)).
Proof.
  intros Hv Ho. unfold assign.
  destruct (_ && _); [destruct v; exact Ho|].
  apply map_Forall_insert_2; assumption.
Qed.

Lemma assignPrimitive_lookup {A} (k c : jsstring) (v : A) (o : gmap jsstring A) :
  o !! protoName = None ->
  assignPrimitive k v o !! c =
  if bool_decide (c = k) && negb (bool_decide (c = protoName)) then Some v
  else o !! c.
Proof.
  intros Ho. unfold assignPrimitive.
  destruct (decide (k = protoName)) as [->|Hk].
  - rewrite Ho, !bool_decide_eq_true_2 by reflexivity. simpl.
    destruct (bool_decide (c = protoName)); reflexivity.
  - rewrite (bool_decide_eq_false_2 _ Hk). simpl.
    destruct (decide (c = k)) as [->|Hc].
    + rewrite bool_decide_eq_true_2 by reflexivity.
      rewrite (bool_decide_eq_false_2 _ Hk). apply lookup_insert_eq.
    + rewrite (bool_decide_eq_false_2 _ Hc). apply lookup_insert_ne. congruence.
Qed.

(** A read of a property that the object has. *)
Lemma readProp_own (h : host) (o : dictionary) (k : jsstring) (v : value) :
  own o !! k = Some v -> readProp h o k = v.
Proof.
  intros Hv. unfold readProp, readPlain, getCell. rewrite Hv.
  destruct (plain o); reflexivity.
Qed.

(** ** Cleaned rows *)

Lemma cleanStep_Returns (h : host) (row : value) (m m' : dictionary)
    (k c : jsstring) :
  cleanStep h row m (k, c) = Returns m' <->
  exists o, cleanCell h row k = Returns o /\ m' = assign c (cellValue o) m.
Proof.
  unfold cleanStep, cleanCell. rewrite bind_Returns. split.
  - intros (x & Hx & H). apply bind_Returns in H as (o & Ho & H).
    injection H as <-. exists o. split; [|reflexivity].
    apply bind_Returns. eauto.
  - intros (o & H & ->). apply bind_Returns in H as (x & Hx & Ho).
    exists x. split; [exact Hx|]. apply bind_Returns. eauto.
Qed.

Lemma cleanFold_cons (h : host) (row : value) (m m' : dictionary)
    (k c : jsstring) (l : list (jsstring * jsstring)) :
  foldM (cleanStep h row) ((k, c) :: l) m = Returns m' <->
  exists o, cleanCell h row k = Returns o /\
            foldM (cleanStep h row) l (assign c (cellValue o) m) = Returns m'.
Proof.
  simpl. rewrite bind_Returns. split.
  - intros (m1 & H1 & H). apply cleanStep_Returns in H1 as (o & Ho & ->). eauto.
  - intros (o & Ho & H). exists (assign c (cellValue o) m).
    split; [|exact H]. apply cleanStep_Returns. eauto.
Qed.

(** A column name written by no turn of the loop keeps its cell. *)
Lemma cleanFold_other (h : host) (row : value) (l : list (jsstring * jsstring))
    (m m' : dictionary) (c : jsstring) :
  foldM (cleanStep h row) l m = Returns m' -> c ∉ l.*2 ->
  own m' !! c = own m !! c.
Proof.
  revert m. induction l as [|[k c'] l IH]; intros m; simpl fmap.
  - simpl. intros H _. injection H as <-. reflexivity.
  - intros H Hc. apply cleanFold_cons in H as (o & _ & H).
    apply not_elem_of_cons in Hc as [Hne Hc].
    rewrite (IH _ H Hc). apply assign_lookup_ne. congruence.
Qed.

(** The last turn that writes a column name decides its cell, unless the
    name is [__proto__]. *)
Lemma cleanFold_last (h : host) (row : value) (l : list (jsstring * jsstring))
    (m m' : dictionary) (j : nat) (k c : jsstring) :
  foldM (cleanStep h row) l m = Returns m' ->
  l !! j = Some (k, c) ->
  c <> protoName ->
  (forall j', (j < j')%nat -> l.*2 !! j' <> Some c) ->
  exists o, cleanCell h row k = Returns o /\ own m' !! c = Some (cellValue o).
Proof.
  revert m j. induction l as [|[k0 c0] l IH]; intros m j H Hj Hc Hlast.
  - discriminate.
  - apply cleanFold_cons in H as (o & Ho & H).
    destruct j as [|j]; simpl in Hj.
    + injection Hj as -> ->. exists o. split; [exact Ho|].
      rewrite (cleanFold_other _ _ _ _ _ c H).
      * apply assign_lookup_eq, Hc.
      * intros Hin. apply list_elem_of_lookup in Hin as (i & Hi).
        apply (Hlast (S i)); [lia | exact Hi].
    + apply (IH _ j H Hj Hc). intros j' Hlt. apply (Hlast (S j')). lia.
Qed.

Lemma cleanFold_keeps (h : host) (row : value) (l : list (jsstring * jsstring))
    (m m' : dictionary) (c : jsstring) :
  foldM (cleanStep h row) l m = Returns m' ->
  is_Some (own m !! c) -> is_Some (own m' !! c).
Proof.
  revert m. induction l as [|[k c'] l IH]; intros m H Hm.
  - simpl in H. injection H as <-. exact Hm.
  - apply cleanFold_cons in H as (o & _ & H).
    apply (IH _ H). apply assign_keeps, Hm.
Qed.

(** Every column name but [__proto__] is an own property of the cleaned
    row. *)
Lemma cleanFold_has (h : host) (row : value) (l : list (jsstring * jsstring))
    (m m' : dictionary) (c : jsstring) :
  foldM (cleanStep h row) l m = Returns m' ->
  c ∈ l.*2 -> c <> protoName -> is_Some (own m' !! c).
Proof.
  revert m. induction l as [|[k c'] l IH]; intros m H Hin Hc; simpl fmap in Hin.
  - inversion Hin.
  - apply cleanFold_cons in H as (o & _ & H).
    apply elem_of_cons in Hin as [->|Hin].
    + apply (cleanFold_keeps _ _ _ _ _ _ H).
      rewrite assign_lookup_eq by exact Hc. eauto.
    + exact (IH _ H Hin Hc).
Qed.

(** The cleaned row has no own property but column names. *)
Lemma cleanFold_dom (h : host) (row : value) (l : list (jsstring * jsstring))
    (m m' : dictionary) (c : jsstring) :
  foldM (cleanStep h row) l m = Returns m' ->
  is_Some (own m' !! c) -> c ∈ l.*2 \/ is_Some (own m !! c).
Proof.
  revert m. induction l as [|[k c'] l IH]; intros m H Hc; simpl fmap.
  - simpl in H. injection H as <-. auto.
  - apply cleanFold_cons in H as (o & _ & H).
    destruct (IH _ H Hc) as [Hin|Hs].
    + left. right. exact Hin.
    + apply assign_adds in Hs as [->|Hs]; [left; left|right; exact Hs].
Qed.

Lemma cellValue_cleaned (h : host) (row : value) (k : jsstring)
    (o : option jsstring) :
  cleanCell h row k = Returns o -> cleanedCell (cellValue o).
Proof.
  unfold cleanCell. rewrite bind_Returns. intros (x & _ & H).
  destruct o as [s|]; [|left; reflexivity].
  right. exists s. split; [reflexivity|]. exact (cleanValue_Some _ _ H).
Qed.

Lemma cleanFold_cells (h : host) (row : value) (l : list (jsstring * jsstring))
    (m m' : dictionary) :
  foldM (cleanStep h row) l m = Returns m' ->
  map_Forall (fun _ v => cleanedCell v) (own m) ->
  map_Forall (fun _ v => cleanedCell v) (own m').
Proof.
  revert m. induction l as [|[k c] l IH]; intros m H Hm.
  - simpl in H. injection H as <-. exact Hm.
  - apply cleanFold_cons in H as (o & Ho & H).
    apply (IH _ H). apply assign_cells; [|exact Hm].
    exact (cellValue_cleaned _ _ _ _ Ho).
Qed.

Lemma cleanRow_has (h : host) (cols ccols : list jsstring) (row : value)
    (m : dictionary) (c : jsstring) :
  length cols = length ccols ->
  cleanRow h cols ccols row = Returns m ->
  c ∈ ccols -> c <> protoName -> is_Some (own m !! c).
Proof.
  intros Hlen H Hin Hc. unfold cleanRow in H.
  apply (cleanFold_has _ _ _ _ _ _ H); [|exact Hc].
  rewrite snd_zip by lia. exact Hin.
Qed.

Lemma cleanRow_dom (h : host) (cols ccols : list jsstring) (row : value)
    (m : dictionary) (c : jsstring) :
  length cols = length ccols ->
  cleanRow h cols ccols row = Returns m ->
  is_Some (own m !! c) -> c ∈ ccols.
Proof.
  intros Hlen H Hc. unfold cleanRow in H.
  destruct (cleanFold_dom _ _ _ _ _ _ H Hc) as [Hin|[w Hw]].
  - rewrite snd_zip in Hin by lia. exact Hin.
  - unfold emptyObject in Hw. cbn [own] in Hw.
    rewrite lookup_empty in Hw. discriminate.
Qed.

Lemma cleanRow_cells (h : host) (cols ccols : list jsstring) (row : value)
    (m : dictionary) :
  cleanRow h cols ccols row = Returns m ->
  map_Forall (fun _ v => cleanedCell v) (own m).
Proof.
  intros H. unfold cleanRow in H.
  apply (cleanFold_cells _ _ _ _ _ H), map_Forall_empty.
Qed.

(** ** The final pass *)

Lemma cleanedCell_scalar (v : value) : cleanedCell v -> scalarCell v.
Proof. intros [->|(s & -> & _)]; exact I. Qed.

Lemma coerceCell_scalar (v : value) : scalarCell v -> scalarCell (coerceCell v).
Proof. destruct v; simpl; auto. Qed.

Lemma coerceCell_idem (v : value) : coerceCell (coerceCell v) = coerceCell v.
Proof. destruct v; reflexivity. Qed.

Lemma finalStep_scalar (h : host) (columnTypes : gmap jsstring columnType)
    (row : gmap jsstring value) (col : jsstring) (v : value) :
  row !! col = Some v -> scalarCell v ->
  finalStep h columnTypes row col =
  Returns (if bool_decide (columnTypes !! col = Some TNumber)
           then <[col := coerceCell v]> row else row).
Proof.
  intros Hv Hs. unfold finalStep, readPlain, assignPrimitive. rewrite Hv.
  rewrite (bool_decide_eq_false_2 (Some v = None)) by discriminate.
  rewrite andb_false_r.
  destruct (bool_decide _); simpl; [|reflexivity].
  destruct v; simpl in *; try contradiction; try reflexivity.
  rewrite insert_id by exact Hv. reflexivity.
Qed.

Lemma finalStep_other (h : host) (columnTypes : gmap jsstring columnType)
    (row : gmap jsstring value) (col : jsstring) :
  columnTypes !! col <> Some TNumber ->
  finalStep h columnTypes row col = Returns row.
Proof.
  intros H. unfold finalStep. rewrite (bool_decide_eq_false_2 _ H). reflexivity.
Qed.

Lemma coerced_cons (columnTypes : gmap jsstring columnType)
    (c col : jsstring) (cols : list jsstring) :
  coerced columnTypes (c :: cols) col =
  (bool_decide (col = c) && bool_decide (columnTypes !! col = Some TNumber))
  || coerced columnTypes cols col.
Proof.
  unfold coerced.
  rewrite (bool_decide_ext (col ∈ c :: cols) (col = c \/ col ∈ cols))
    by apply elem_of_cons.
  rewrite bool_decide_or. destruct (bool_decide (col = c)),
    (bool_decide (col ∈ cols)), (bool_decide (_ = Some TNumber)); reflexivity.
Qed.

Lemma finalFold_lookup (h : host) (columnTypes : gmap jsstring columnType)
    (cols : list jsstring) (row : gmap jsstring value) :
  map_Forall (fun _ v => scalarCell v) row ->
  (forall c, c ∈ cols -> columnTypes !! c = Some TNumber -> is_Some (row !! c)) ->
  exists r, foldM (finalStep h columnTypes) cols row = Returns r /\
    forall col, r !! col =
      (if coerced columnTypes cols col then coerceCell else id) <$> row !! col.
Proof.
  revert row. induction cols as [|c cols IH]; intros row Hs Hd.
  - exists row. split; [reflexivity|]. intros col.
    unfold coerced. rewrite bool_decide_eq_false_2 by apply not_elem_of_nil.
    simpl. destruct (row !! col); reflexivity.
  - destruct (decide (columnTypes !! c = Some TNumber)) as [Hty|Hty].
    + destruct (Hd c) as [v Hv]; [left|exact Hty|].
      pose proof (Hs _ _ Hv) as Hsv. simpl.
      rewrite (finalStep_scalar _ _ _ _ _ Hv Hsv).
      rewrite (bool_decide_eq_true_2 _ Hty). simpl.
      destruct (IH (<[c := coerceCell v]> row)) as (r & Hr & Hlook).
      * apply map_Forall_insert_2; [apply coerceCell_scalar, Hsv | exact Hs].
      * intros k Hk Hkty. destruct (decide (k = c)) as [->|Hne].
        -- rewrite lookup_insert_eq. eauto.
        -- rewrite lookup_insert_ne by congruence. apply Hd; [right|]; assumption.
      * exists r. split; [exact Hr|]. intros col.
        rewrite Hlook, coerced_cons.
        destruct (decide (col = c)) as [->|Hne].
        -- rewrite lookup_insert_eq, Hv. simpl.
           rewrite (bool_decide_eq_true_2 (c = c)) by reflexivity.
           rewrite (bool_decide_eq_true_2 _ Hty). simpl.
           destruct (coerced columnTypes cols c); simpl;
             [rewrite coerceCell_idem|]; reflexivity.
        -- rewrite lookup_insert_ne by congruence.
           rewrite (bool_decide_eq_false_2 (col = c)) by exact Hne. reflexivity.
    + simpl. rewrite (finalStep_other _ _ _ _ Hty). simpl.
      destruct (IH row) as (r & Hr & Hlook); [exact Hs| |].
      * intros k Hk. apply Hd. right. exact Hk.
      * exists r. split; [exact Hr|]. intros col.
        rewrite Hlook, coerced_cons.
        destruct (decide (col = c)) as [->|Hne].
        -- rewrite (bool_decide_eq_false_2 _ Hty), andb_false_r. reflexivity.
        -- rewrite (bool_decide_eq_false_2 (col = c)) by exact Hne. reflexivity.
Qed.

(** The final pass on a cleaned row returns, and changes exactly the
    strings of the columns typed [number]. *)
Lemma finalRow_cleaned (h : host) (cols : list jsstring)
    (columnTypes : gmap jsstring columnType) (row : dictionary) :
  map_Forall (fun _ v => cleanedCell v) (own row) ->
  (forall c, c ∈ cols -> columnTypes !! c = Some TNumber ->
             is_Some (own row !! c)) ->
  exists r, finalRow h cols columnTypes row = Returns r /\
    forall col, r !! col =
      (if coerced columnTypes cols col then coerceCell else id) <$> own row !! col.
Proof.
  intros Hc Hd. apply finalFold_lookup; [|exact Hd].
  intros k v Hv. apply cleanedCell_scalar, (Hc _ _ Hv).
Qed.

(** ** Samples and inferred types *)

Lemma fold_insert_lookup {V} (f : jsstring -> V) (cols : list jsstring)
    (m : gmap jsstring V) (col : jsstring) :
  fold_left (fun (m : gmap jsstring V) c => <[c := f c]> m) cols m !! col =
  if bool_decide (col ∈ cols) then Some (f col) else m !! col.
Proof.
  revert m. induction cols as [|c cols IH]; intros m; simpl.
  - reflexivity.
  - rewrite IH. destruct (decide (col ∈ cols)) as [Hin|Hnin].
    + rewrite !bool_decide_eq_true_2; [reflexivity | right; exact Hin | exact Hin].
    + rewrite (bool_decide_eq_false_2 _ Hnin).
      destruct (decide (col = c)) as [->|Hne].
      * rewrite bool_decide_eq_true_2 by left. apply lookup_insert_eq.
      * rewrite bool_decide_eq_false_2.
        -- apply lookup_insert_ne. congruence.
        -- rewrite elem_of_cons. tauto.
Qed.

(** The same loop with assignments of primitives: the name [__proto__]
    gets no entry. *)
Lemma fold_assign_lookup {V} (f : jsstring -> V) (cols : list jsstring)
    (m : gmap jsstring V) (col : jsstring) :
  m !! protoName = None ->
  fold_left (fun (m : gmap jsstring V) c => assignPrimitive c (f c) m) cols m !! col =
  if bool_decide (col ∈ cols) && negb (bool_decide (col = protoName))
  then Some (f col) else m !! col.
Proof.
  revert m. induction cols as [|c cols IH]; intros m Hm; simpl.
  - reflexivity.
  - rewrite IH.
    + rewrite (assignPrimitive_lookup _ _ _ _ Hm).
      destruct (decide (col = c)) as [->|Hne].
      * rewrite (bool_decide_eq_true_2 (c ∈ c :: cols)) by left.
        rewrite (bool_decide_eq_true_2 (c = c)) by reflexivity.
        destruct (bool_decide (c ∈ cols)), (bool_decide (c = protoName));
          reflexivity.
      * rewrite (bool_decide_eq_false_2 (col = c)) by exact Hne.
        rewrite (bool_decide_ext (col ∈ c :: cols) (col ∈ cols))
          by (rewrite elem_of_cons; tauto).
        destruct (bool_decide (col ∈ cols)), (bool_decide (col = protoName));
          reflexivity.
    + rewrite (assignPrimitive_lookup _ _ _ _ Hm).
      rewrite (bool_decide_eq_true_2 (protoName = protoName)) by reflexivity.
      rewrite andb_false_r. exact Hm.
Qed.

Lemma elem_of_pushes (col : jsstring) (cols : list jsstring) (v x : value) :
  x ∈ pushes col cols v <-> x = v /\ col ∈ cols.
Proof.
  induction cols as [|c cols IH]; simpl.
  - rewrite elem_of_nil, elem_of_nil. tauto.
  - destruct (decide (c = col)) as [->|Hne].
    + rewrite bool_decide_eq_true_2 by reflexivity.
      rewrite !elem_of_cons, IH. tauto.
    + rewrite bool_decide_eq_false_2 by exact Hne.
      rewrite IH, elem_of_cons. split; [tauto|].
      intros [? [?|?]]; [congruence|tauto].
Qed.

Lemma sampleRow_lookup (h : host) (cols : list jsstring)
    (samples : gmap jsstring (list value)) (row : dictionary) (col : jsstring) :
  sampleRow h cols samples row !! col =
  (fun l => l ++ rowPushes h cols col row) <$> samples !! col.
Proof.
  unfold sampleRow, rowPushes. revert samples.
  induction cols as [|c cols IH]; intros samples; simpl.
  - destruct (samples !! col); simpl; [|reflexivity].
    destruct (isPresent _); rewrite app_nil_r; reflexivity.
  - rewrite IH. destruct (decide (c = col)) as [->|Hne].
    + rewrite bool_decide_eq_true_2 by reflexivity.
      destruct (isPresent (readProp h row col)); [|reflexivity].
      rewrite lookup_alter_eq. destruct (samples !! col); simpl; [|reflexivity].
      rewrite <- app_assoc. reflexivity.
    + rewrite bool_decide_eq_false_2 by exact Hne.
      destruct (isPresent (readProp h row c)); [|reflexivity].
      rewrite lookup_alter_ne by exact Hne. reflexivity.
Qed.

Lemma sampleRows_lookup (h : host) (cols : list jsstring) (rows : list dictionary)
    (samples : gmap jsstring (list value)) (col : jsstring) :
  fold_left (sampleRow h cols) rows samples !! col =
  (fun l => l ++ flat_map (rowPushes h cols col) rows) <$> samples !! col.
Proof.
  revert samples. induction rows as [|row rows IH]; intros samples; simpl.
  - destruct (samples !! col); simpl; [rewrite app_nil_r|]; reflexivity.
  - rewrite IH, sampleRow_lookup.
    destruct (samples !! col); simpl; [rewrite <- app_assoc|]; reflexivity.
Qed.

(** The samples of a column that every cleaned row has as own property
    are its cells that are not [null], from the first rows. *)
Lemma collectSamples_lookup (h : host) (cols : list jsstring)
    (rows : list dictionary) (col : jsstring) :
  col ∈ cols ->
  Forall (fun row => is_Some (own row !! col)) rows ->
  exists l, collectSamples h cols rows !! col = Some l /\
    forall x, x ∈ l <->
      x ∈ sampleOf col (own <$> take (Nat.min 100 (length rows)) rows).
Proof.
  intros Hin Hown. unfold collectSamples.
  assert (Hrs : Forall (fun row => is_Some (own row !! col))
                  (take (Nat.min 100 (length rows)) rows))
    by (apply Forall_take, Hown).
  revert Hrs. generalize (take (Nat.min 100 (length rows)) rows). intros rs Hrs.
  rewrite sampleRows_lookup. unfold emptySamples.
  rewrite fold_insert_lookup, bool_decide_eq_true_2 by exact Hin. simpl.
  eexists. split; [reflexivity|].
  intros x. unfold sampleOf.
  induction Hrs as [|row rs [w Hw] _ IH]; simpl; [reflexivity|].
  rewrite elem_of_app, IH. unfold rowPushes at 1.
  rewrite (readProp_own _ _ _ _ Hw).
  replace (getCell (own row) col) with w by (unfold getCell; rewrite Hw; reflexivity).
  destruct (isPresent w).
  - rewrite elem_of_cons, elem_of_pushes. tauto.
  - rewrite elem_of_nil. tauto.
Qed.

Lemma forallb_same_elems (p : value -> bool) (l l' : list value) :
  (forall x, x ∈ l <-> x ∈ l') -> forallb p l = forallb p l'.
Proof.
  intros H. apply eq_true_iff_eq. rewrite !forallb_forall.
  split; intros Hp x Hx; apply Hp, list_elem_of_In;
    apply list_elem_of_In in Hx; apply H; exact Hx.
Qed.

Lemma inferType_same_elems (dp : jsstring -> bool) (l l' : list value) :
  (forall x, x ∈ l <-> x ∈ l') -> inferType dp l = inferType dp l'.
Proof.
  intros H. unfold inferType.
  rewrite !(forallb_same_elems _ l l' H).
  destruct l as [|x l], l' as [|y l']; simpl; try reflexivity.
  - exfalso. apply (not_elem_of_nil y), H. left.
  - exfalso. apply (not_elem_of_nil x), H. left.
Qed.

(** [columnTypes] has an entry for each column name but [__proto__]. *)
Lemma inferTypes_lookup (dp : jsstring -> bool) (cols : list jsstring)
    (samples : gmap jsstring (list value)) (col : jsstring) :
  inferTypes dp cols samples !! col =
  if bool_decide (col ∈ cols) && negb (bool_decide (col = protoName))
  then Some (inferType dp (default [] (samples !! col))) else None.
Proof.
  unfold inferTypes.
  rewrite (fold_assign_lookup
             (fun c => inferType dp (default [] (samples !! c))))
    by apply lookup_empty.
  rewrite lookup_empty. reflexivity.
Qed.

Lemma inferTypes_Some (dp : jsstring -> bool) (cols : list jsstring)
    (samples : gmap jsstring (list value)) (col : jsstring) (ty : columnType) :
  inferTypes dp cols samples !! col = Some ty ->
  col ∈ cols /\ col <> protoName /\
  ty = inferType dp (default [] (samples !! col)).
Proof.
  rewrite inferTypes_lookup.
  destruct (decide (col ∈ cols)) as [Hin|Hnin];
    [|rewrite (bool_decide_eq_false_2 _ Hnin); discriminate].
  destruct (decide (col = protoName)) as [Hp|Hp].
  - rewrite (bool_decide_eq_true_2 _ Hp), andb_false_r. discriminate.
  - rewrite (bool_decide_eq_true_2 _ Hin), (bool_decide_eq_false_2 _ Hp).
    intros [= <-]. auto.
Qed.

Lemma inferTypes_proto (dp : jsstring -> bool) (cols : list jsstring)
    (samples : gmap jsstring (list value)) :
  inferTypes dp cols samples !! protoName = None.
Proof.
  rewrite inferTypes_lookup.
  rewrite (bool_decide_eq_true_2 (protoName = protoName)) by reflexivity.
  rewrite andb_false_r. reflexivity.
Qed.

Lemma inferType_firstQualifying (dp : jsstring -> bool) (l : list value) :
  inferType dp l = firstQualifying dp l.
Proof.
  unfold inferType, firstQualifying, candidates.
  destruct l as [|x l]; [reflexivity|].
  cbn [length Nat.eqb List.find fst snd].
  destruct (forallb isBooleanSample (x :: l)); [reflexivity|].
  destruct (forallb isNumberSample (x :: l)); [reflexivity|].
  destruct (forallb (isDateSample dp) (x :: l)); [reflexivity|].
  destruct (forallb _ (x :: l)); reflexivity.
Qed.

(** ** The stages of [convertJsonToParsedData] *)

Lemma filter_all (keys : list jsstring) :
  List.filter (fun _ : jsstring => true) keys = keys.
Proof. induction keys as [|k keys IH]; simpl; [|rewrite IH]; reflexivity. Qed.

Lemma mapM_length {A B} (f : A -> result B) (l : list A) (l' : list B) :
  mapM f l = Returns l' -> length l' = length l.
Proof. intros H%mapM_Returns. symmetry. exact (Forall2_length _ _ _ H). Qed.

Lemma mapM_lookup {A B} (f : A -> result B) (l : list A) (l' : list B)
    (i : nat) (y : B) :
  mapM f l = Returns l' -> l' !! i = Some y ->
  exists x, l !! i = Some x /\ f x = Returns y.
Proof.
  intros H%mapM_Returns Hy.
  destruct (Forall2_lookup_r _ _ _ _ _ H Hy) as (x & Hx & Hf). eauto.
Qed.

Lemma mapM_total {A B} (f : A -> result B) (l : list A) :
  Forall (fun x => exists y, f x = Returns y) l -> exists l', mapM f l = Returns l'.
Proof.
  induction 1 as [|x l (y & Hy) _ (l' & IH)]; simpl.
  - eexists. reflexivity.
  - rewrite Hy, IH. eexists. reflexivity.
Qed.

Lemma convert_Returns (h : host) (dp : jsstring -> bool) (jsonData : list value)
    (t : ParsedData) :
  convertJsonToParsedData h dp jsonData = Returns t <-> converted h dp jsonData t.
Proof.
  unfold convertJsonToParsedData. split.
  - destruct jsonData as [|firstRow rest].
    + intros H. injection H as <-. apply conv_no_rows; reflexivity.
    + rewrite bind_Returns. intros (keys & Hkeys & H).
      rewrite filter_all in H. destruct keys as [|k keys].
      * injection H as <-. eapply conv_no_columns; eauto.
      * cbn [length Nat.eqb] in H.
        apply bind_Returns in H as (cleanedRows & Hclean & H).
        apply bind_Returns in H as (finalRows & Hfinal & H).
        pose proof (mapM_length _ _ _ Hclean) as Hlen.
        destruct cleanedRows as [|cr crs]; [discriminate|].
        cbn [length Nat.ltb Nat.leb] in H, Hfinal.
        injection H as <-.
        eapply conv_table; eauto; discriminate.
  - intros [-> ->|firstRow rest -> Hkeys ->
            |firstRow rest keys cleanedRows finalRows -> Hkeys Hne Hclean Hfinal ->].
    + reflexivity.
    + rewrite Hkeys. reflexivity.
    + rewrite Hkeys. cbn [mbind result_bind]. rewrite filter_all.
      destruct keys as [|k keys]; [contradiction|].
      cbn [length Nat.eqb]. rewrite Hclean. cbn [mbind result_bind].
      pose proof (mapM_length _ _ _ Hclean) as Hlen.
      destruct cleanedRows as [|cr crs]; [discriminate|].
      cbn [length Nat.ltb Nat.leb]. rewrite Hfinal. reflexivity.
Qed.

Lemma cleanedRowsOf_table (h : host) (firstRow : value) (rest : list value)
    (keys : list jsstring) (cleanedRows : list dictionary) :
  objectKeys firstRow = Returns keys ->
  mapM (cleanRow h keys (imap cleanColumn keys)) (firstRow :: rest)
    = Returns cleanedRows ->
  cleanedRowsOf h (firstRow :: rest) = Returns (own <$> cleanedRows).
Proof.
  intros Hkeys H. unfold cleanedRowsOf. rewrite Hkeys.
  cbn [mbind result_bind]. rewrite H. reflexivity.
Qed.

(** Whenever the conversion returns, so does the cleaning pass. *)
Lemma converted_cleanedRows (h : host) (dp : jsstring -> bool)
    (jsonData : list value) (t : ParsedData) :
  converted h dp jsonData t ->
  exists cleanedRows, cleanedRowsOf h jsonData = Returns cleanedRows.
Proof.
  intros [-> _|firstRow rest -> Hkeys _
         |firstRow rest keys cleanedRows finalRows -> Hkeys _ Hclean _ _].
  - exists []. reflexivity.
  - unfold cleanedRowsOf. rewrite Hkeys. cbn [mbind result_bind imap].
    destruct (mapM_total (cleanRow h [] []) (firstRow :: rest)) as (l & ->).
    + apply Forall_forall. intros row _. exists emptyObject. reflexivity.
    + eexists. reflexivity.
  - eexists. exact (cleanedRowsOf_table _ _ _ _ _ Hkeys Hclean).
Qed.

(** Every output row comes from the cleaned row at the same position:
    the cleaned row has cleaned cells, under column names only and under
    every column name but [__proto__], and the output row differs from it
    in the columns typed [number] only. *)
Lemma table_row (h : host) (keys : list jsstring)
    (columnTypes : gmap jsstring columnType)
    (jsonData : list value) (cleanedRows : list dictionary)
    (finalRows : list (gmap jsstring value))
    (i : nat) (row : gmap jsstring value) :
  columnTypes !! protoName = None ->
  mapM (cleanRow h keys (imap cleanColumn keys)) jsonData = Returns cleanedRows ->
  mapM (finalRow h (imap cleanColumn keys) columnTypes) cleanedRows
    = Returns finalRows ->
  finalRows !! i = Some row ->
  exists cr x,
    cleanedRows !! i = Some cr /\ jsonData !! i = Some x /\
    cleanRow h keys (imap cleanColumn keys) x = Returns cr /\
    (forall c, c ∈ imap cleanColumn keys -> c <> protoName ->
               is_Some (own cr !! c)) /\
    (forall c, is_Some (own cr !! c) -> c ∈ imap cleanColumn keys) /\
    map_Forall (fun _ v => cleanedCell v) (own cr) /\
    forall col, row !! col =
      (if coerced columnTypes (imap cleanColumn keys) col
       then coerceCell else id) <$> own cr !! col.
Proof.
  intros Hproto Hclean Hfinal Hrow.
  destruct (mapM_lookup _ _ _ _ _ Hfinal Hrow) as (cr & Hcr & Hf).
  destruct (mapM_lookup _ _ _ _ _ Hclean Hcr) as (x & Hx & Hc).
  exists cr, x.
  assert (Hlen : length keys = length (imap cleanColumn keys))
    by (rewrite length_imap; reflexivity).
  assert (Hhas : forall c, c ∈ imap cleanColumn keys -> c <> protoName ->
                           is_Some (own cr !! c)).
  { intros c. exact (cleanRow_has _ _ _ _ _ c Hlen Hc). }
  pose proof (cleanRow_cells _ _ _ _ _ Hc) as Hcells.
  destruct (finalRow_cleaned h (imap cleanColumn keys) columnTypes cr Hcells)
    as (r & Hr & Hlook).
  { intros c Hin Hty. apply Hhas; [exact Hin|].
    intros ->. rewrite Hproto in Hty. discriminate. }
  rewrite Hf in Hr. injection Hr as <-.
  repeat split; try assumption.
  intros c. exact (cleanRow_dom _ _ _ _ _ c Hlen Hc).
Qed.

(** The cells that the samples of a column are drawn from. *)
Lemma cleanedRows_own (h : host) (keys : list jsstring) (jsonData : list value)
    (cleanedRows : list dictionary) (col : jsstring) :
  mapM (cleanRow h keys (imap cleanColumn keys)) jsonData = Returns cleanedRows ->
  col ∈ imap cleanColumn keys -> col <> protoName ->
  Forall (fun row => is_Some (own row !! col)) cleanedRows.
Proof.
  intros Hclean Hin Hp. apply Forall_forall. intros cr Hcr.
  apply list_elem_of_lookup in Hcr as (i & Hi).
  destruct (mapM_lookup _ _ _ _ _ Hclean Hi) as (x & _ & Hx).
  apply (cleanRow_has _ _ _ _ _ col) in Hx; auto.
  rewrite length_imap. reflexivity.
Qed.

(** ** The claims about the table *)

Lemma convert_hashInput (h : host) (dp : jsstring -> bool) :
  convertJsonToParsedData h dp hashInput = Returns (hashTable dp).
Proof.
  vm_compute.
  destruct (dp _); vm_compute; reflexivity.
Qed.

(** The first end-to-end example of the specification, for every host
    and date parser. *)
Example convert_amount (h : host) (dp : jsstring -> bool) :
  convertJsonToParsedData h dp
    [VObject [prop "Amount " "237,706"]; VObject [prop "Amount " "NIL"]]
  = Returns {| columns := [str "Amount"];
               rows := [ {[ str "Amount" := VNumber (Finite false 237706 0) ]};
                         {[ str "Amount" := VNull ]} ];
               columnTypes := {[ str "Amount" := TNumber ]} |}.
Proof. vm_compute. reflexivity. Qed.

(** C2, as the code has it.  On [[{"#": "1", "Name": "Ravi Kumar"}]] the
    key ["#"] sanitizes to the empty string and gets the name
    ["Column_1"]; its only sample ["1"] is numeric, so the column is typed
    [number] and its cell is the number 1. *)
Theorem hash_column_is_number (h : host) (dp : jsstring -> bool) :
  keepNameChars (underscoreRuns false (stripEdges (trim (str "#")))) = []
  /\ exists t row,
       convertJsonToParsedData h dp hashInput = Returns t /\
       columns t = [str "Column_1"; str "Name"] /\
       columnTypes t !! str "Column_1" = Some TNumber /\
       rows t = [row] /\
       row !! str "Column_1" = Some (VNumber (Finite false 1 0)).
Proof.
  split; [reflexivity|].
  eexists. eexists. split; [apply convert_hashInput|].
  repeat split; reflexivity.
Qed.

(** C2 as stated fails: for no host and no date parser is ["Column_1"]
    typed [string]. *)
Lemma hash_column_not_string :
  ~ exists h dp t, convertJsonToParsedData h dp hashInput = Returns t /\
                   columnTypes t !! str "Column_1" = Some TString.
Proof.
  intros (h & dp & t & Ht & Hty).
  rewrite convert_hashInput in Ht. injection Ht as <-.
  vm_compute in Hty. discriminate.
Qed.

(** A key named [__proto__] gives a column without cells and without a
    type: the assignments to [newRow.__proto__] and to
    [columnTypes.__proto__] run the setter, which ignores a string. *)
Lemma convert_protoInput (dp : jsstring -> bool) :
  convertJsonToParsedData objectLibrary dp protoInput = Returns protoTable.
Proof. vm_compute. reflexivity. Qed.

(** C4 as stated fails: the column [__proto__] of [protoInput] has the
    sample ["1"] and no type. *)
Lemma proto_column_has_no_type :
  ~ forall h dp jsonData t,
      convertJsonToParsedData h dp jsonData = Returns t ->
      exists cleanedRows,
        cleanedRowsOf h jsonData = Returns cleanedRows /\
        forall col, col ∈ columns t ->
          columnTypes t !! col =
          Some (firstQualifying dp
                  (sampleOf col
                     (take (Nat.min 100 (length cleanedRows)) cleanedRows))).
Proof.
  intros H.
  destruct (H objectLibrary isoDay protoInput protoTable
              (convert_protoInput _)) as (crs & _ & Hty).
  assert (Hnone : columnTypes protoTable !! protoName = None)
    by (vm_compute; reflexivity).
  rewrite (Hty protoName) in Hnone by left. discriminate.
Qed.

(** C4, amended.  Whenever the conversion returns, each column name other
    than [__proto__] has for type the first of boolean, number, date,
    string that every sampled value passes, the sample of a column being
    its non-null cleaned values in the first [min 100 rowCount] rows; with
    no sample the type is string.  The name [__proto__] has no type. *)
Theorem inferred_type_is_first_qualifying (h : host) (dp : jsstring -> bool)
    (jsonData : list value) (t : ParsedData) :
  convertJsonToParsedData h dp jsonData = Returns t ->
  exists cleanedRows,
    cleanedRowsOf h jsonData = Returns cleanedRows /\
    (forall col, col ∈ columns t -> col <> protoName ->
       columnTypes t !! col =
       Some (firstQualifying dp
               (sampleOf col
                  (take (Nat.min 100 (length cleanedRows)) cleanedRows)))) /\
    columnTypes t !! protoName = None.
Proof.
  intros H%convert_Returns.
  destruct (converted_cleanedRows _ _ _ _ H) as (crs & Hcrs).
  destruct H as [-> ->|firstRow rest -> Hkeys ->
                |firstRow rest keys cleanedRows finalRows -> Hkeys _ Hclean _ ->].
  - exists crs. split; [exact Hcrs|]. split; [|reflexivity].
    intros col Hin. inversion Hin.
  - exists crs. split; [exact Hcrs|]. split; [|reflexivity].
    intros col Hin. inversion Hin.
  - exists (own <$> cleanedRows).
    split; [exact (cleanedRowsOf_table _ _ _ _ _ Hkeys Hclean)|].
    cbn [columns columnTypes]. split; [|apply inferTypes_proto].
    intros col Hin Hp.
    rewrite inferTypes_lookup, (bool_decide_eq_true_2 _ Hin),
      (bool_decide_eq_false_2 _ Hp).
    destruct (collectSamples_lookup h _ cleanedRows col Hin) as (l & -> & Hl).
    { exact (cleanedRows_own _ _ _ _ _ Hclean Hin Hp). }
    cbn [andb negb from_option]. unfold id. f_equal.
    rewrite length_fmap, <- fmap_take.
    rewrite (inferType_same_elems dp _ _ Hl).
    apply inferType_firstQualifying.
Qed.

Lemma convert_mixedInput (h : host) :
  convertJsonToParsedData h isoDay mixedInput = Returns mixedTable.
Proof. vm_compute. reflexivity. Qed.

(** The theorem at [mixedInput]. *)
Lemma inferred_type_witness :
  exists cleanedRows,
    cleanedRowsOf objectLibrary mixedInput = Returns cleanedRows /\
    (forall col, col ∈ columns mixedTable -> col <> protoName ->
       columnTypes mixedTable !! col =
       Some (firstQualifying isoDay
               (sampleOf col
                  (take (Nat.min 100 (length cleanedRows)) cleanedRows)))) /\
    columnTypes mixedTable !! protoName = None.
Proof.
  apply (inferred_type_is_first_qualifying objectLibrary isoDay mixedInput
           mixedTable).
  vm_compute. reflexivity.
Defined.

Lemma convert_clashInput (dp : jsstring -> bool) :
  convertJsonToParsedData objectLibrary dp clashInput = Returns clashTable.
Proof. vm_compute. reflexivity. Qed.

(** C5 as stated fails: the keys ["a"] and ["a#"] both give the column
    name ["a"]. *)
Lemma columns_can_repeat :
  ~ forall h dp jsonData t,
      convertJsonToParsedData h dp jsonData = Returns t -> NoDup (columns t).
Proof.
  intros H.
  specialize (H objectLibrary isoDay clashInput clashTable
                (convert_clashInput isoDay)).
  apply NoDup_cons in H as [Hnin _]. apply Hnin. left.
Qed.

(** C5, amended.  [columns] holds the sanitized names of the keys of the
    first record, one for each key and in their order (a name can repeat);
    the keys of every row are column names, and every column name other
    than [__proto__] is a key of every row; [columnTypes] has an entry for
    exactly the column names other than [__proto__]; an input without rows
    or whose first record has no key gives the empty table. *)
Theorem parsed_table_shape (h : host) (dp : jsstring -> bool)
    (jsonData : list value) (t : ParsedData) :
  convertJsonToParsedData h dp jsonData = Returns t ->
  (forall firstRow rest keys,
     jsonData = firstRow :: rest -> objectKeys firstRow = Returns keys ->
     columns t = imap cleanColumn keys)
  /\ (forall row, row ∈ rows t ->
        (forall col, col ∈ dom row -> col ∈ columns t) /\
        (forall col, col ∈ columns t -> col <> protoName -> col ∈ dom row))
  /\ (forall col, col ∈ dom (columnTypes t) <->
                  col ∈ columns t /\ col <> protoName)
  /\ (jsonData = [] -> t = emptyData)
  /\ (forall firstRow rest,
        jsonData = firstRow :: rest -> objectKeys firstRow = Returns [] ->
        t = emptyData).
Proof.
  intros H%convert_Returns.
  destruct H as [-> ->|firstRow rest -> Hkeys ->
                |firstRow rest keys cleanedRows finalRows -> Hkeys Hne Hclean Hfinal ->].
  - split; [discriminate|]. split; [intros row Hrow; inversion Hrow|].
    split; [|split; [reflexivity|discriminate]].
    intros col. cbn [columnTypes columns emptyData]. rewrite dom_empty_L.
    split; [intros Hc; inversion Hc | intros [Hc _]; inversion Hc].
  - split.
    { intros f r ks Heq Hks. injection Heq as <- <-.
      rewrite Hkeys in Hks. injection Hks as <-. reflexivity. }
    split; [intros row Hrow; inversion Hrow|].
    split; [|split; [discriminate|reflexivity]].
    intros col. cbn [columnTypes columns emptyData]. rewrite dom_empty_L.
    split; [intros Hc; inversion Hc | intros [Hc _]; inversion Hc].
  - cbn [columns rows columnTypes]. split.
    { intros f r ks Heq Hks. injection Heq as <- <-.
      rewrite Hkeys in Hks. injection Hks as <-. reflexivity. }
    split.
    { intros row Hrow. apply list_elem_of_lookup in Hrow as (i & Hi).
      destruct (table_row _ _ _ _ _ _ _ _ (inferTypes_proto _ _ _)
                  Hclean Hfinal Hi)
        as (cr & x & _ & _ & _ & Hhas & Hdom & _ & Hlook).
      split; intros col.
      - rewrite elem_of_dom, Hlook. intros [v Hv]. apply Hdom.
        destruct (own cr !! col); [eauto|discriminate].
      - intros Hin Hp. rewrite elem_of_dom, Hlook.
        destruct (Hhas col Hin Hp) as [w ->]. eexists. reflexivity. }
    split.
    { intros col. rewrite elem_of_dom. split.
      - intros [ty Hty]. apply inferTypes_Some in Hty as (Hin & Hp & _). auto.
      - intros [Hin Hp].
        rewrite inferTypes_lookup, (bool_decide_eq_true_2 _ Hin),
          (bool_decide_eq_false_2 _ Hp). eexists. reflexivity. }
    split; [discriminate|].
    intros f r Heq Hks. injection Heq as <- <-.
    rewrite Hkeys in Hks. injection Hks as ->. contradiction.
Qed.

(** The theorem at [protoInput]. *)
Lemma parsed_table_shape_witness :
  (forall firstRow rest keys,
     protoInput = firstRow :: rest -> objectKeys firstRow = Returns keys ->
     columns protoTable = imap cleanColumn keys)
  /\ (forall row, row ∈ rows protoTable ->
        (forall col, col ∈ dom row -> col ∈ columns protoTable) /\
        (forall col, col ∈ columns protoTable -> col <> protoName ->
                     col ∈ dom row))
  /\ (forall col, col ∈ dom (columnTypes protoTable) <->
                  col ∈ columns protoTable /\ col <> protoName)
  /\ (protoInput = [] -> protoTable = emptyData)
  /\ (forall firstRow rest,
        protoInput = firstRow :: rest -> objectKeys firstRow = Returns [] ->
        protoTable = emptyData).
Proof.
  apply (parsed_table_shape objectLibrary isoDay protoInput protoTable).
  vm_compute. reflexivity.
Defined.

Lemma inferTypes_number_column (dp : jsstring -> bool) (cols : list jsstring)
    (samples : gmap jsstring (list value)) (col : jsstring) :
  inferTypes dp cols samples !! col = Some TNumber ->
  coerced (inferTypes dp cols samples) cols col = true.
Proof.
  intros H. unfold coerced. rewrite (bool_decide_eq_true_2 _ H), andb_true_r.
  apply inferTypes_Some in H as (Hin & _). apply bool_decide_eq_true_2, Hin.
Qed.

Lemma convert_lateTextInput (h : host) (dp : jsstring -> bool) :
  convertJsonToParsedData h dp lateTextInput = Returns lateTextTable.
Proof. vm_compute. reflexivity. Qed.

(** C9.  In a column typed [number] the final pass turns the cleaned
    string of every row into its numeric value and leaves [null] cells,
    whatever the position of the row; so in [lateTextInput], where the
    first hundred cleaned values of the column are numeric and the last
    one is not, the column is typed [number] and the last cell is NaN. *)
Theorem number_column_coerced_in_every_row :
  (forall h dp jsonData t cleanedRows i cr row col,
     convertJsonToParsedData h dp jsonData = Returns t ->
     cleanedRowsOf h jsonData = Returns cleanedRows ->
     cleanedRows !! i = Some cr ->
     rows t !! i = Some row ->
     columnTypes t !! col = Some TNumber ->
     (cr !! col = Some VNull /\ row !! col = Some VNull) \/
     (exists s, cr !! col = Some (VString s) /\
                row !! col = Some (VNumber (stringToNumber s))))
  /\ (forall h dp, exists t,
        convertJsonToParsedData h dp lateTextInput = Returns t /\
        length lateTextInput = 101%nat /\
        cleanedRowsOf h lateTextInput
          = Returns (replicate 100 {[ str "n" := VString (str "1") ]}
                     ++ [ {[ str "n" := VString (str "abc") ]} ]) /\
        isNumberSample (VString (str "1")) = true /\
        isNumberSample (VString (str "abc")) = false /\
        columnTypes t !! str "n" = Some TNumber /\
        exists row, rows t !! 100%nat = Some row /\
                    row !! str "n" = Some (VNumber NaN)).
Proof.
  split.
  - intros h dp jsonData t cleanedRows i cr row col H%convert_Returns
      Hcrs Hcr Hrow Hty.
    destruct H as [-> ->|firstRow rest -> Hkeys ->
                  |firstRow rest keys crs finalRows -> Hkeys _ Hclean Hfinal ->];
      try discriminate.
    cbn [rows columnTypes] in Hrow, Hty.
    rewrite (cleanedRowsOf_table _ _ _ _ _ Hkeys Hclean) in Hcrs.
    injection Hcrs as <-.
    apply list_lookup_fmap_Some in Hcr as (d & -> & Hd).
    destruct (table_row _ _ _ _ _ _ _ _ (inferTypes_proto _ _ _)
                Hclean Hfinal Hrow)
      as (cr' & x & Hcr' & _ & _ & Hhas & _ & Hcells & Hlook).
    rewrite Hd in Hcr'. injection Hcr' as <-.
    specialize (Hlook col).
    rewrite (inferTypes_number_column _ _ _ _ Hty) in Hlook.
    apply inferTypes_Some in Hty as (Hin & Hp & _).
    destruct (Hhas col Hin Hp) as [v Hv]. rewrite Hv in Hlook |- *.
    destruct (Hcells _ _ Hv) as [->|(s & -> & _)].
    + left. split; [reflexivity | exact Hlook].
    + right. exists s. split; [reflexivity | exact Hlook].
  - intros h dp. exists lateTextTable.
    split; [apply convert_lateTextInput|].
    split; [reflexivity|]. split; [vm_compute; reflexivity|].
    split; [vm_compute; reflexivity|]. split; [vm_compute; reflexivity|].
    split; [vm_compute; reflexivity|].
    eexists. split; vm_compute; reflexivity.
Qed.

(** The general part of the theorem at the last row of [lateTextInput]. *)
Lemma number_column_coerced_witness :
  ({[ str "n" := VString (str "abc") ]} : gmap jsstring value) !! str "n" = Some VNull /\
  ({[ str "n" := VNumber NaN ]} : gmap jsstring value) !! str "n" = Some VNull \/
  exists s,
    ({[ str "n" := VString (str "abc") ]} : gmap jsstring value) !! str "n"
      = Some (VString s) /\
    ({[ str "n" := VNumber NaN ]} : gmap jsstring value) !! str "n"
      = Some (VNumber (stringToNumber s)).
Proof.
  apply (proj1 number_column_coerced_in_every_row objectLibrary isoDay
           lateTextInput lateTextTable
           (replicate 100 {[ str "n" := VString (str "1") ]}
            ++ [ {[ str "n" := VString (str "abc") ]} ])
           100%nat).
  - vm_compute. reflexivity.
  - vm_compute. reflexivity.
  - vm_compute. reflexivity.
  - vm_compute. reflexivity.
  - vm_compute. reflexivity.
Defined.



(** C7 as stated fails: the second record of [clashInput] has no key
    ["a"], and its row holds 5 under the name ["a"], written by the later
    column ["a#"]. *)
Lemma later_column_overwrites_missing_key :
  ~ forall h dp firstRow rest t keys i props j k c row,
      convertJsonToParsedData h dp (firstRow :: rest) = Returns t ->
      objectKeys firstRow = Returns keys ->
      (firstRow :: rest) !! i = Some (VObject props) ->
      keys !! j = Some k ->
      ownProp k props = None ->
      columns t !! j = Some c ->
      rows t !! i = Some row ->
      row !! c = Some VNull.
Proof.
  intros H.
  specialize (H objectLibrary isoDay _ _ clashTable [str "a"; str "a#"] 1%nat
                [prop "a#" "5"] 0%nat (str "a") (str "a")
                {[ str "a" := VNumber (Finite false 5 0) ]}
                (convert_clashInput isoDay)
                eq_refl eq_refl eq_refl eq_refl eq_refl eq_refl).
  vm_compute in H. discriminate.
Qed.

(** A second way in which C7 as stated fails: the second record of
    [constructorInput] has no key [constructor] of its own, and the read
    finds the function [Object] on its prototype chain; the row holds the
    text of that function. *)
Example inherited_name_fills_missing_key :
  convertJsonToParsedData objectLibrary isoDay constructorInput
  = Returns constructorTable.
Proof. vm_compute. reflexivity. Qed.

(** And a third: a key that is sanitized to [__proto__].  The [null]
    computed for the second record becomes the prototype of its row, which
    holds no property. *)
Example missing_key_named_proto :
  convertJsonToParsedData objectLibrary isoDay
    [VObject [prop "__proto__ " "x"]; VObject []]
  = Returns {| columns := [str "__proto__"];
               rows := [∅; ∅];
               columnTypes := ∅ |}.
Proof. vm_compute. reflexivity. Qed.

(** C7, amended.  When a record lacks a key of the first record and
    inherits no property of that name, the cell computed for it is [null]
    and nothing is thrown; the output row holds [null] under the sanitized
    name of that column, provided that the name is not [__proto__] and
    that no later column has the same sanitized name. *)
Theorem missing_key_gives_null (h : host) (dp : jsstring -> bool)
    (firstRow : value) (rest : list value) (t : ParsedData)
    (keys : list jsstring) (i j : nat)
    (props : list (jsstring * value)) (k c : jsstring)
    (row : gmap jsstring value) :
  convertJsonToParsedData h dp (firstRow :: rest) = Returns t ->
  objectKeys firstRow = Returns keys ->
  (firstRow :: rest) !! i = Some (VObject props) ->
  keys !! j = Some k ->
  ownProp k props = None ->
  h PlainObject k = None ->
  columns t !! j = Some c ->
  c <> protoName ->
  (forall j', (j < j')%nat -> columns t !! j' <> Some c) ->
  rows t !! i = Some row ->
  cleanCell h (VObject props) k = Returns None /\ row !! c = Some VNull.
Proof.
  intros H%convert_Returns Hkeys Hi Hj Hk Hh Hc Hp Hlast Hrow.
  assert (Hcell : cleanCell h (VObject props) k = Returns None).
  { unfold cleanCell, getProp, chainValue. rewrite Hk, Hh. reflexivity. }
  split; [exact Hcell|].
  destruct H as [? _|f r Heq Hkeys' ->
                |f r keys' crs finalRows Heq Hkeys' _ Hclean Hfinal ->];
    try discriminate.
  injection Heq as <- <-. rewrite Hkeys in Hkeys'. injection Hkeys' as <-.
  cbn [columns rows] in Hc, Hlast, Hrow.
  destruct (table_row _ _ _ _ _ _ _ _ (inferTypes_proto _ _ _) Hclean Hfinal Hrow)
    as (cr & x & _ & Hx & Hcr & _ & _ & _ & Hlook).
  rewrite Hi in Hx. injection Hx as <-.
  unfold cleanRow in Hcr.
  destruct (cleanFold_last _ _ _ _ _ j k c Hcr) as (o & Ho & Hcell').
  - apply lookup_zip_with_Some. eauto.
  - exact Hp.
  - rewrite snd_zip by (rewrite length_imap; reflexivity). exact Hlast.
  - rewrite Hcell in Ho. injection Ho as <-.
    rewrite Hlook, Hcell'. simpl. destruct (coerced _ _ _); reflexivity.
Qed.

(** The theorem at the second record of the input of [shortTable]. *)
Lemma missing_key_witness :
  cleanCell objectLibrary (VObject [prop "Name" "Asha"]) (str "Amount ")
    = Returns None /\
  ({[ str "Name" := VString (str "Asha"); str "Amount" := VNull ]}
     : gmap jsstring value) !! str "Amount" = Some VNull.
Proof.
  apply (missing_key_gives_null objectLibrary isoDay
           (VObject [prop "Name" "Ravi"; prop "Amount " "12"])
           [VObject [prop "Name" "Asha"]] shortTable
           [str "Name"; str "Amount "] 1%nat 1%nat).
  - vm_compute. reflexivity.
  - reflexivity.
  - reflexivity.
  - reflexivity.
  - reflexivity.
  - reflexivity.
  - reflexivity.
  - discriminate.
  - intros [|[|j']] Hlt; try lia; discriminate.
  - reflexivity.
Defined.

(** ** Inputs on which nothing is thrown *)

Lemma objectKeys_readable (row : value) :
  readableRow row = true -> exists keys, objectKeys row = Returns keys.
Proof. destruct row; try discriminate; intros _; eexists; reflexivity. Qed.

Lemma ownProp_elem (k : jsstring) (props : list (jsstring * value)) (v : value) :
  ownProp k props = Some v -> exists k', (k', v) ∈ props.
Proof.
  induction props as [|[k' w] props IH]; simpl; [discriminate|].
  destruct (bool_decide (k' = k)).
  - intros H. injection H as ->. exists k'. left.
  - intros H. destruct (IH H) as (k'' & Hin). exists k''. right. exact Hin.
Qed.

(** What the prototype chain has can be turned into a string. *)
Lemma chainValue_coercible (h : host) (r : receiver) (k : jsstring) :
  coercible (chainValue h r k) = true.
Proof. unfold chainValue. destruct (h r k); reflexivity. Qed.

Lemma getProp_readable (h : host) (row : value) (k : jsstring) :
  readableRow row = true ->
  exists x, getProp h row k = Returns x /\ coercible x = true.
Proof.
  destruct row as [| |b|n|s|elems|props|text]; try discriminate; simpl; intros H.
  - eexists. split; [reflexivity | apply chainValue_coercible].
  - eexists. split; [reflexivity | apply chainValue_coercible].
  - destruct (bool_decide _); [eexists; split; reflexivity|].
    destruct (arrayIndex k) as [i|];
      [|eexists; split; [reflexivity | apply chainValue_coercible]].
    destruct (nth_error s i);
      eexists; split; try reflexivity; apply chainValue_coercible.
  - destruct (bool_decide _); [eexists; split; reflexivity|].
    destruct (arrayIndex k) as [i|];
      [|eexists; split; [reflexivity | apply chainValue_coercible]].
    destruct (nth_error elems i) as [x|] eqn:Hx;
      [|eexists; split; [reflexivity | apply chainValue_coercible]].
    exists x. split; [reflexivity|].
    rewrite forallb_forall in H. apply H, (nth_error_In _ _ Hx).
  - destruct (ownProp k props) as [v|] eqn:Hv;
      [|eexists; split; [reflexivity | apply chainValue_coercible]].
    exists v. split; [reflexivity|].
    apply ownProp_elem in Hv as (k' & Hin).
    rewrite forallb_forall in H.
    apply (H (k', v)), list_elem_of_In, Hin.
Qed.

Lemma cleanValue_coercible (x : value) :
  coercible x = true -> exists o, cleanValue x = Returns o.
Proof.
  unfold coercible. intros H.
  destruct (isPresent x) eqn:Hx.
  - rewrite (cleanValue_unfold _ Hx).
    destruct (toString x) as [s|]; [|discriminate]. simpl.
    destruct (isNullMarker _); eexists; reflexivity.
  - destruct x; try discriminate; eexists; reflexivity.
Qed.

Lemma cleanFold_readable (h : host) (row : value)
    (l : list (jsstring * jsstring)) (m : dictionary) :
  readableRow row = true ->
  exists m', foldM (cleanStep h row) l m = Returns m'.
Proof.
  intros Hrow. revert m. induction l as [|[k c] l IH]; intros m.
  - eexists. reflexivity.
  - destruct (getProp_readable h row k Hrow) as (x & Hx & Hcx).
    destruct (cleanValue_coercible x Hcx) as (o & Ho).
    destruct (IH (assign c (cellValue o) m)) as (m' & Hm').
    exists m'. apply cleanFold_cons. exists o. split; [|exact Hm'].
    unfold cleanCell. rewrite Hx. exact Ho.
Qed.

(** C3 as stated fails: [Object.keys(null)] throws. *)
Lemma null_row_throws :
  ~ forall h dp jsonData, exists t, convertJsonToParsedData h dp jsonData = Returns t.
Proof.
  intros H. destruct (H objectLibrary isoDay [VNull]) as (t & Ht). discriminate.
Qed.

(** C3, amended.  On an input in which no element is [null] or
    [undefined] and no element holds a value that [String] fails on (an
    object with an own [toString] property), the conversion returns a
    table; with [null] as first element it throws a [TypeError]. *)
Theorem convert_returns_on_readable_rows :
  (forall h dp jsonData,
     forallb readableRow jsonData = true ->
     exists t, convertJsonToParsedData h dp jsonData = Returns t)
  /\ (forall h dp rest,
        convertJsonToParsedData h dp (VNull :: rest) = Throws TypeError).
Proof.
  split; [|reflexivity].
  intros h dp jsonData Hall.
  destruct jsonData as [|firstRow rest].
  { exists emptyData. reflexivity. }
  pose proof Hall as Hfirst. cbn [forallb] in Hfirst.
  apply andb_true_iff in Hfirst as [Hfirst _].
  destruct (objectKeys_readable _ Hfirst) as (keys & Hkeys).
  destruct keys as [|k0 keys0] eqn:Ek.
  { exists emptyData. apply convert_Returns.
    eapply conv_no_columns; eauto. }
  rewrite <- Ek in *. assert (Hne : keys <> []) by (rewrite Ek; discriminate).
  clear Ek.
  destruct (mapM_total (cleanRow h keys (imap cleanColumn keys)) (firstRow :: rest))
    as (cleanedRows & Hclean).
  { apply Forall_forall. intros row Hin.
    unfold cleanRow. apply cleanFold_readable.
    rewrite forallb_forall in Hall. apply Hall, list_elem_of_In, Hin. }
  set (ctypes := inferTypes dp (imap cleanColumn keys)
                   (collectSamples h (imap cleanColumn keys) cleanedRows)).
  destruct (mapM_total (finalRow h (imap cleanColumn keys) ctypes) cleanedRows)
    as (finalRows & Hfinal).
  { apply Forall_forall. intros cr Hin.
    apply list_elem_of_lookup in Hin as (i & Hi).
    destruct (mapM_lookup _ _ _ _ _ Hclean Hi) as (x & _ & Hx).
    destruct (finalRow_cleaned h (imap cleanColumn keys) ctypes cr) as (r & Hr & _).
    - exact (cleanRow_cells _ _ _ _ _ Hx).
    - intros c Hc Hty. apply inferTypes_Some in Hty as (_ & Hp & _).
      apply (cleanRow_has _ _ _ _ _ c) in Hx; auto.
      rewrite length_imap. reflexivity.
    - exists r. exact Hr. }
  eexists. apply convert_Returns.
  eapply conv_table; eauto.
Qed.

(** The theorem at [motleyInput]. *)
Lemma convert_returns_witness :
  exists t, convertJsonToParsedData objectLibrary isoDay motleyInput = Returns t.
Proof.
  apply (proj1 convert_returns_on_readable_rows objectLibrary isoDay motleyInput).
  vm_compute. reflexivity.
Defined.

(** * Further properties *)

(** [mapM] on a prefix. *)
Lemma mapM_take {A B} (f : A -> result B) (l : list A) (l' : list B) (n : nat) :
  mapM f l = Returns l' -> mapM f (take n l) = Returns (take n l').
Proof.
  rewrite !mapM_Returns. intros H. apply Forall2_take, H.
Qed.

Lemma mapM_ext_Forall2 {A B} (f : A -> result B) (l k : list A) :
  Forall2 (fun x y => f x = f y) l k -> mapM f l = mapM f k.
Proof.
  induction 1 as [|x y l k Hxy _ IH]; simpl; [reflexivity|].
  rewrite Hxy, IH. reflexivity.
Qed.

Lemma mapM_ext {A B} (f g : A -> result B) (l : list A) :
  (forall x, f x = g x) -> mapM f l = mapM g l.
Proof.
  intros H. induction l as [|x l IH]; simpl; [reflexivity|].
  rewrite H, IH. reflexivity.
Qed.

Lemma foldM_ext_in {A S} (f g : S -> A -> result S) (l : list A) (s : S) :
  (forall s x, x ∈ l -> f s x = g s x) -> foldM f l s = foldM g l s.
Proof.
  revert s. induction l as [|x l IH]; intros s H; simpl; [reflexivity|].
  rewrite (H s x) by left. destruct (g s x); simpl; [|reflexivity].
  apply IH. intros s' y Hy. apply H. right. exact Hy.
Qed.

Lemma take_sample_size {A} (l : list A) :
  take (Nat.min 100 (length l)) l = take 100 l.
Proof.
  destruct (Nat.le_ge_cases 100 (length l)) as [H|H].
  - rewrite Nat.min_l by exact H. reflexivity.
  - rewrite Nat.min_r by exact H. rewrite !take_ge by lia. reflexivity.
Qed.

(** X1.  When the first record has keys, the table has one row for each
    input record and one column for each key of the first record. *)
Theorem table_dimensions (h : host) (dp : jsstring -> bool) (firstRow : value)
    (rest : list value) (keys : list jsstring) (t : ParsedData) :
  convertJsonToParsedData h dp (firstRow :: rest) = Returns t ->
  objectKeys firstRow = Returns keys ->
  keys <> [] ->
  length (rows t) = S (length rest) /\ length (columns t) = length keys.
Proof.
  intros H%convert_Returns Hkeys Hne.
  destruct H as [? _|f r Heq Hkeys' ->
                |f r keys' crs finalRows Heq Hkeys' _ Hclean Hfinal ->];
    try discriminate; injection Heq as <- <-;
    rewrite Hkeys in Hkeys'; injection Hkeys' as Hk; [contradiction|].
  subst keys'. cbn [rows columns]. split.
  - rewrite (mapM_length _ _ _ Hfinal), (mapM_length _ _ _ Hclean). reflexivity.
  - apply length_imap.
Qed.

(** The theorem at the input of [shortTable]. *)
Lemma table_dimensions_witness :
  length (rows shortTable) = S (length [VObject [prop "Name" "Asha"]]) /\
  length (columns shortTable) = length [str "Name"; str "Amount "].
Proof.
  apply (table_dimensions objectLibrary isoDay
           (VObject [prop "Name" "Ravi"; prop "Amount " "12"])
           [VObject [prop "Name" "Asha"]]).
  - vm_compute. reflexivity.
  - reflexivity.
  - discriminate.
Defined.

(** X2.  Every column name of a returned table is a non-empty string
    over [[a-zA-Z0-9_]]. *)
Theorem column_names_are_identifiers (h : host) (dp : jsstring -> bool)
    (jsonData : list value) (t : ParsedData) (c : jsstring) :
  convertJsonToParsedData h dp jsonData = Returns t ->
  c ∈ columns t ->
  c <> [] /\ Forall (fun x => isNameChar x = true) c.
Proof.
  intros H%convert_Returns Hc.
  destruct H as [-> ->|firstRow rest -> Hkeys ->
                |firstRow rest keys crs finalRows -> Hkeys _ _ _ ->];
    try (inversion Hc; fail).
  cbn [columns] in Hc. apply list_elem_of_lookup in Hc as (i & Hi).
  apply list_lookup_imap_Some in Hi as (k & _ & ->).
  destruct (cleanColumn_nameString i k) as [Hn He]. split; assumption.
Qed.

(** The theorem at the column [Amount] of [mixedTable]. *)
Lemma column_names_witness :
  str "Amount" <> [] /\ Forall (fun x => isNameChar x = true) (str "Amount").
Proof.
  apply (column_names_are_identifiers objectLibrary isoDay mixedInput mixedTable).
  - vm_compute. reflexivity.
  - right. left.
Defined.

(** ** What [cleanValue] keeps *)
Lemma dropWhile_sublist (p : N -> bool) (s : jsstring) : dropWhile p s `sublist_of` s.
Proof.
  destruct (dropWhile_suffix p s) as (pre & H). rewrite H at 2.
  apply sublist_inserts_l. reflexivity.
Qed.

Lemma dropWhileEnd_sublist (p : N -> bool) (s : jsstring) :
  dropWhileEnd p s `sublist_of` s.
Proof.
  destruct (dropWhileEnd_prefix p s) as (suf & H). rewrite H at 2.
  apply sublist_inserts_r. reflexivity.
Qed.

Lemma trim_sublist (s : jsstring) : trim s `sublist_of` s.
Proof.
  unfold trim. etransitivity; [apply dropWhileEnd_sublist | apply dropWhile_sublist].
Qed.

Lemma filter_sublist (p : N -> bool) (s : jsstring) : List.filter p s `sublist_of` s.
Proof.
  induction s as [|c s IH]; simpl; [constructor|].
  destruct (p c); constructor; exact IH.
Qed.

Lemma removeFirst_sublist (re : list atom) (s : jsstring) :
  removeFirst re s `sublist_of` s.
Proof.
  induction s as [|c s IH]; simpl.
  - destruct (matchPrefix re []) as [rest|] eqn:E; [|constructor].
    apply matchPrefix_suffix in E as (m & E).
    symmetry in E. apply app_eq_nil in E as [_ ->]. constructor.
  - destruct (matchPrefix re (c :: s)) as [rest|] eqn:E.
    + apply matchPrefix_suffix in E as (m & ->).
      apply sublist_inserts_l. reflexivity.
    + constructor. exact IH.
Qed.

(** X3.  [cleanValue] only deletes: the string it returns is the text of
    the value with some characters removed, in the same order. *)
Theorem cleanValue_only_deletes (v : value) (s : jsstring) :
  cleanValue v = Returns (Some s) ->
  exists text, toString v = Returns text /\ s `sublist_of` text.
Proof.
  destruct (isPresent v) eqn:Hv; [|destruct v; discriminate].
  rewrite (cleanValue_unfold _ Hv), bind_Returns.
  intros (text & Htext & H). exists text. split; [exact Htext|].
  destruct (isNullMarker (cleanText text)); [discriminate|].
  injection H as <-. unfold cleanText.
  etransitivity; [apply trim_sublist|].
  etransitivity; [apply removeFirst_sublist|].
  etransitivity; [apply filter_sublist|]. apply trim_sublist.
Qed.

(** The theorem at the value ["  1,234 kg "]. *)
Lemma cleanValue_only_deletes_witness :
  exists text, toString (VString (str "  1,234 kg ")) = Returns text /\
               str "1234 kg" `sublist_of` text.
Proof.
  apply (cleanValue_only_deletes (VString (str "  1,234 kg "))).
  vm_compute. reflexivity.
Defined.

(** ** What the types and the rows depend on *)
Lemma collectSamples_take (h : host) (cols : list jsstring)
    (rows : list dictionary) :
  collectSamples h cols rows = collectSamples h cols (take 100 rows).
Proof.
  unfold collectSamples. rewrite !take_sample_size, take_take.
  reflexivity.
Qed.

Lemma mapM_lookup_l {A B} (f : A -> result B) (l : list A) (l' : list B)
    (i : nat) (x : A) :
  mapM f l = Returns l' -> l !! i = Some x ->
  exists y, l' !! i = Some y /\ f x = Returns y.
Proof.
  intros H%mapM_Returns Hx.
  destruct (Forall2_lookup_l _ _ _ _ _ H Hx) as (y & Hy & Hf). eauto.
Qed.

(** The output row at a position is a function of the input row there and
    of the column types. *)
Lemma output_row_at (h : host) (keys : list jsstring)
    (ct : gmap jsstring columnType) (jsonData : list value)
    (crs : list dictionary) (frs : list (gmap jsstring value)) (i : nat) :
  mapM (cleanRow h keys (imap cleanColumn keys)) jsonData = Returns crs ->
  mapM (finalRow h (imap cleanColumn keys) ct) crs = Returns frs ->
  frs !! i =
  match jsonData !! i with
  | Some x =>
      match cleanRow h keys (imap cleanColumn keys) x with
      | Returns cr =>
          match finalRow h (imap cleanColumn keys) ct cr with
          | Returns r => Some r
          | Throws _ => None
          end
      | Throws _ => None
      end
  | None => None
  end.
Proof.
  intros Hc Hf. destruct (jsonData !! i) as [x|] eqn:Hx.
  - destruct (mapM_lookup_l _ _ _ _ _ Hc Hx) as (cr & Hcr & ->).
    destruct (mapM_lookup_l _ _ _ _ _ Hf Hcr) as (r & Hr & ->). exact Hr.
  - apply lookup_ge_None. apply lookup_ge_None in Hx.
    rewrite (mapM_length _ _ _ Hf), (mapM_length _ _ _ Hc). exact Hx.
Qed.

(** X4.  Two inputs with the same first hundred records get the same
    columns and the same column types, and the same output row wherever
    they have the same record. *)
Theorem types_from_first_hundred_rows (h : host) (dp : jsstring -> bool)
    (a b : list value) (ta tb : ParsedData) :
  take 100 a = take 100 b ->
  convertJsonToParsedData h dp a = Returns ta ->
  convertJsonToParsedData h dp b = Returns tb ->
  columns ta = columns tb /\ columnTypes ta = columnTypes tb /\
  forall i, a !! i = b !! i -> rows ta !! i = rows tb !! i.
Proof.
  intros Htake Ha%convert_Returns Hb%convert_Returns.
  destruct Ha as [-> ->|fa ra -> Hka ->
                 |fa ra ka cra fra -> Hka Hnea Hca Hfa ->];
  destruct Hb as [-> ->|fb rb -> Hkb ->
                 |fb rb kb crb frb -> Hkb Hneb Hcb Hfb ->];
    try discriminate; try (repeat split; reflexivity);
    injection Htake as <- Hrest.
  - rewrite Hka in Hkb. injection Hkb as <-. contradiction.
  - rewrite Hka in Hkb. injection Hkb as ->. contradiction.
  - rewrite Hka in Hkb. injection Hkb as <-. cbn [columns columnTypes rows].
    assert (Hs : collectSamples h (imap cleanColumn ka) cra
                 = collectSamples h (imap cleanColumn ka) crb).
    { rewrite (collectSamples_take _ _ cra), (collectSamples_take _ _ crb). f_equal.
      pose proof (mapM_take _ _ _ 100 Hca) as Hta.
      pose proof (mapM_take _ _ _ 100 Hcb) as Htb.
      cbn [take] in Hta, Htb. rewrite Hrest in Hta. rewrite Hta in Htb.
      injection Htb as ->. reflexivity. }
    split; [reflexivity|]. split; [rewrite Hs; reflexivity|].
    intros i Hi.
    rewrite (output_row_at _ _ _ _ _ _ i Hca Hfa),
      (output_row_at _ _ _ _ _ _ i Hcb Hfb).
    rewrite Hi, Hs. reflexivity.
Qed.

(** The theorem at [lateTextInput] and [lateDigitInput]. *)
Lemma types_from_first_hundred_rows_witness :
  columns lateTextTable = columns lateDigitTable /\
  columnTypes lateTextTable = columnTypes lateDigitTable /\
  forall i, lateTextInput !! i = lateDigitInput !! i ->
            rows lateTextTable !! i = rows lateDigitTable !! i.
Proof.
  apply (types_from_first_hundred_rows objectLibrary isoDay).
  - vm_compute. reflexivity.
  - vm_compute. reflexivity.
  - vm_compute. reflexivity.
Defined.

Lemma cleanRow_agreeOn (h : host) (keys ccols : list jsstring) (r r' : value) :
  agreeOn h keys r r' -> cleanRow h keys ccols r = cleanRow h keys ccols r'.
Proof.
  intros H. unfold cleanRow. apply foldM_ext_in.
  intros m [k c] Hin. unfold cleanStep.
  rewrite (H k); [reflexivity|].
  apply elem_of_zip_l in Hin. exact Hin.
Qed.

(** X5.  Only the keys of the first record are read: records in which a
    read of each of these keys gives the same (an own property, or what
    the prototype chain has) give the same result, whatever else they
    hold. *)
Theorem other_keys_are_ignored (h : host) (dp : jsstring -> bool)
    (firstRow : value) (rest rest' : list value) (keys : list jsstring) :
  objectKeys firstRow = Returns keys ->
  Forall2 (agreeOn h keys) rest rest' ->
  convertJsonToParsedData h dp (firstRow :: rest)
  = convertJsonToParsedData h dp (firstRow :: rest').
Proof.
  intros Hkeys Hagree. unfold convertJsonToParsedData.
  rewrite Hkeys. cbn [mbind result_bind]. rewrite filter_all.
  destruct (length keys =? 0)%nat; [reflexivity|].
  rewrite (mapM_ext_Forall2 _ (firstRow :: rest) (firstRow :: rest')).
  - reflexivity.
  - constructor; [reflexivity|].
    eapply Forall2_impl; [exact Hagree|].
    intros r r' H. apply cleanRow_agreeOn, H.
Qed.

(** The theorem at a second record with and without a key [z] that the
    first record does not have. *)
Lemma other_keys_are_ignored_witness :
  convertJsonToParsedData objectLibrary isoDay
    [VObject [prop "a" "1"]; VObject [prop "a" "2"; prop "z" "9"]]
  = convertJsonToParsedData objectLibrary isoDay
      [VObject [prop "a" "1"]; VObject [prop "a" "2"]].
Proof.
  apply (other_keys_are_ignored objectLibrary isoDay (VObject [prop "a" "1"])
           [VObject [prop "a" "2"; prop "z" "9"]] [VObject [prop "a" "2"]]
           [str "a"]).
  - reflexivity.
  - constructor; [|constructor].
    intros k Hk. apply list_elem_of_singleton in Hk. rewrite Hk. reflexivity.
Defined.

Lemma inferType_cases (dp : jsstring -> bool) (l : list value) :
  (inferType dp l = TBoolean -> forallb isBooleanSample l = true) /\
  (inferType dp l = TNumber -> forallb isNumberSample l = true) /\
  (inferType dp l = TDate -> forallb (isDateSample dp) l = true).
Proof.
  unfold inferType. destruct (length l =? 0)%nat.
  { repeat split; discriminate. }
  cbv zeta.
  destruct (forallb isBooleanSample l); [repeat split; auto; discriminate|].
  destruct (forallb isNumberSample l); [repeat split; auto; discriminate|].
  destruct (forallb (isDateSample dp) l); repeat split; auto; discriminate.
Qed.

Lemma sampled_cell (cols : list jsstring) (crs : list (gmap jsstring value))
    (i : nat) (cr : gmap jsstring value) (col : jsstring) (w : value) :
  (i < 100)%nat -> crs !! i = Some cr -> cr !! col = Some w ->
  isPresent w = true ->
  w ∈ sampleOf col (take (Nat.min 100 (length crs)) crs).
Proof.
  intros Hi Hcr Hw Hp. rewrite take_sample_size. unfold sampleOf.
  apply list_elem_of_In, filter_In. split; [|exact Hp].
  apply in_map_iff. exists cr. split.
  - unfold getCell. rewrite Hw. reflexivity.
  - apply list_elem_of_In, list_elem_of_lookup. exists i.
    rewrite lookup_take_lt by exact Hi. exact Hcr.
Qed.

(** X6.  In the first hundred rows a cell that is not [null] conforms to
    the type of its column: a number that is not NaN in a column typed
    [number], the string ["true"] or ["false"] in a column typed
    [boolean], a string of more than five characters that the host parses
    in a column typed [date]. *)
Theorem sampled_cells_conform (h : host) (dp : jsstring -> bool)
    (jsonData : list value) (t : ParsedData) (i : nat)
    (row : gmap jsstring value) (col : jsstring) (v : value) :
  convertJsonToParsedData h dp jsonData = Returns t ->
  (i < 100)%nat ->
  rows t !! i = Some row ->
  row !! col = Some v ->
  v <> VNull ->
  (columnTypes t !! col = Some TNumber ->
     exists n, v = VNumber n /\ isNaN n = false) /\
  (columnTypes t !! col = Some TBoolean ->
     v = VString (str "true") \/ v = VString (str "false")) /\
  (columnTypes t !! col = Some TDate ->
     exists s, v = VString s /\ dp s = true /\ (5 < length s)%nat).
Proof.
  intros H%convert_Returns Hi Hrow Hv Hnn.
  destruct H as [-> ->|firstRow rest -> Hkeys ->
                |firstRow rest keys crs finalRows -> Hkeys _ Hclean Hfinal ->];
    try discriminate.
  cbn [rows columnTypes] in *.
  destruct (table_row _ _ _ _ _ _ _ _ (inferTypes_proto _ _ _) Hclean Hfinal Hrow)
    as (cr & x & Hcr & _ & _ & _ & Hdom & Hcells & Hlook).
  rewrite Hlook in Hv.
  destruct (own cr !! col) as [w|] eqn:Hw; [|discriminate].
  assert (Hin : col ∈ imap cleanColumn keys) by (apply Hdom; eauto).
  assert (Hpw : isPresent w = true).
  { destruct (Hcells _ _ Hw) as [->|(s & -> & _)]; [|reflexivity].
    simpl in Hv. destruct (coerced _ _ _); injection Hv as <-; contradiction. }
  set (ct := inferTypes dp _ _) in *.
  assert (Htyped : forall ty, ct !! col = Some ty ->
            exists l, ty = inferType dp l /\ In w l).
  { intros ty Hty. unfold ct in Hty.
    apply inferTypes_Some in Hty as (_ & Hp & ->).
    destruct (collectSamples_lookup h _ crs col Hin
                (cleanedRows_own _ _ _ _ _ Hclean Hin Hp)) as (l & Hl & Hsame).
    rewrite Hl. exists l. split; [reflexivity|].
    apply list_elem_of_In, Hsame.
    pose proof (sampled_cell (imap cleanColumn keys) (own <$> crs) i (own cr)
                  col w Hi) as Hs.
    rewrite length_fmap, <- fmap_take in Hs. apply Hs; [|exact Hw|exact Hpw].
    rewrite list_lookup_fmap, Hcr. reflexivity. }
  destruct (Hcells _ _ Hw) as [->|(s & -> & _)]; [discriminate|].
  unfold coerced in Hv. rewrite (bool_decide_eq_true_2 _ Hin) in Hv.
  cbn [andb fmap option_fmap option_map] in Hv.
  repeat split.
  - intros E. destruct (Htyped _ E) as (l & El & Hs).
    rewrite (bool_decide_eq_true_2 _ E) in Hv.
    injection Hv as <-. eexists. split; [reflexivity|].
    destruct (inferType_cases dp l) as (_ & Hn & _).
    specialize (Hn (eq_sym El)). rewrite forallb_forall in Hn.
    specialize (Hn _ Hs).
    simpl in Hn. apply andb_true_iff in Hn as [Hn _].
    apply negb_true_iff in Hn. exact Hn.
  - intros E. destruct (Htyped _ E) as (l & El & Hs).
    rewrite bool_decide_eq_false_2 in Hv by (rewrite E; discriminate).
    injection Hv as <-.
    destruct (inferType_cases dp l) as (Hb & _ & _).
    specialize (Hb (eq_sym El)). rewrite forallb_forall in Hb.
    specialize (Hb _ Hs).
    simpl in Hb. apply orb_true_iff in Hb as [Hb|Hb];
      apply bool_decide_eq_true in Hb; subst s; auto.
  - intros E. destruct (Htyped _ E) as (l & El & Hs).
    rewrite bool_decide_eq_false_2 in Hv by (rewrite E; discriminate).
    injection Hv as <-.
    destruct (inferType_cases dp l) as (_ & _ & Hd).
    specialize (Hd (eq_sym El)). rewrite forallb_forall in Hd.
    specialize (Hd _ Hs).
    simpl in Hd. apply andb_true_iff in Hd as [Hd1 Hd2].
    exists s. repeat split; [exact Hd1|]. apply Nat.ltb_lt, Hd2.
Qed.

(** The theorem at the cell [Amount] of the first row of [mixedTable]. *)
Lemma sampled_cells_conform_witness :
  (columnTypes mixedTable !! str "Amount" = Some TNumber ->
     exists n, VNumber (Finite false 237706 0) = VNumber n /\ isNaN n = false) /\
  (columnTypes mixedTable !! str "Amount" = Some TBoolean ->
     VNumber (Finite false 237706 0) = VString (str "true") \/
     VNumber (Finite false 237706 0) = VString (str "false")) /\
  (columnTypes mixedTable !! str "Amount" = Some TDate ->
     exists s, VNumber (Finite false 237706 0) = VString s /\
               isoDay s = true /\ (5 < length s)%nat).
Proof.
  apply (sampled_cells_conform objectLibrary isoDay mixedInput mixedTable 0%nat
           {[ str "Paid" := VString (str "true");
              str "Amount" := VNumber (Finite false 237706 0);
              str "Due" := VString (str "2024-01-31");
              str "Note" := VString (str "12") ]}).
  - vm_compute. reflexivity.
  - lia.
  - reflexivity.
  - vm_compute. reflexivity.
  - discriminate.
Defined.

Lemma inferType_parser (dp dp' : jsstring -> bool) (l : list value) :
  (inferType dp l = TNumber <-> inferType dp' l = TNumber) /\
  (inferType dp l = TBoolean <-> inferType dp' l = TBoolean).
Proof.
  unfold inferType. destruct (length l =? 0)%nat; [tauto|]. cbv zeta.
  destruct (forallb isBooleanSample l); [tauto|].
  destruct (forallb isNumberSample l); [tauto|].
  destruct (forallb (isDateSample dp) l), (forallb (isDateSample dp') l);
    split; split; discriminate.
Qed.

Lemma inferTypes_parser (dp dp' : jsstring -> bool) (cols : list jsstring)
    (samples : gmap jsstring (list value)) (col : jsstring) :
  (inferTypes dp cols samples !! col = Some TNumber <->
   inferTypes dp' cols samples !! col = Some TNumber) /\
  (inferTypes dp cols samples !! col = Some TBoolean <->
   inferTypes dp' cols samples !! col = Some TBoolean).
Proof.
  rewrite !inferTypes_lookup.
  destruct (bool_decide (col ∈ cols) && negb (bool_decide (col = protoName))).
  - destruct (inferType_parser dp dp' (default [] (samples !! col))) as [Hn Hb].
    split; split; intros [= E]; f_equal; first [apply Hn, E | apply Hb, E].
  - split; split; discriminate.
Qed.

Lemma finalRow_ext (h : host) (cols : list jsstring)
    (ct ct' : gmap jsstring columnType) (row : dictionary) :
  (forall col, ct !! col = Some TNumber <-> ct' !! col = Some TNumber) ->
  finalRow h cols ct row = finalRow h cols ct' row.
Proof.
  intros H. unfold finalRow. apply foldM_ext_in. intros m col _. unfold finalStep.
  rewrite (bool_decide_ext _ _ (H col)). reflexivity.
Qed.

(** X7.  The date parser of the host decides between the labels [date]
    and [string] only: with another parser the conversion returns as well,
    with the same columns and rows and the same columns typed [number] and
    [boolean]. *)
Theorem date_parser_changes_labels_only (h : host) (dp dp' : jsstring -> bool)
    (jsonData : list value) (t : ParsedData) :
  convertJsonToParsedData h dp jsonData = Returns t ->
  exists t',
    convertJsonToParsedData h dp' jsonData = Returns t' /\
    columns t' = columns t /\ rows t' = rows t /\
    forall col,
      (columnTypes t' !! col = Some TNumber <-> columnTypes t !! col = Some TNumber) /\
      (columnTypes t' !! col = Some TBoolean <-> columnTypes t !! col = Some TBoolean).
Proof.
  intros H%convert_Returns.
  destruct H as [-> ->|firstRow rest -> Hkeys ->
                |firstRow rest keys crs finalRows -> Hkeys Hne Hclean Hfinal ->].
  - exists emptyData. repeat split; auto.
  - exists emptyData. split; [|repeat split; auto].
    apply convert_Returns. eapply conv_no_columns; eauto.
  - eexists. split.
    + apply convert_Returns. eapply conv_table; eauto.
      rewrite <- Hfinal. apply mapM_ext.
      intros cr. apply finalRow_ext. intros col.
      apply (inferTypes_parser dp' dp).
    + cbn [columns rows columnTypes]. repeat split;
        apply (inferTypes_parser dp' dp).
Qed.

(** The theorem at [mixedInput], from [isoDay] to a parser that accepts
    nothing. *)
Lemma date_parser_witness :
  exists t',
    convertJsonToParsedData objectLibrary (fun _ => false) mixedInput
      = Returns t' /\
    columns t' = columns mixedTable /\ rows t' = rows mixedTable /\
    forall col,
      (columnTypes t' !! col = Some TNumber <->
       columnTypes mixedTable !! col = Some TNumber) /\
      (columnTypes t' !! col = Some TBoolean <->
       columnTypes mixedTable !! col = Some TBoolean).
Proof.
  apply (date_parser_changes_labels_only objectLibrary isoDay (fun _ => false)
           mixedInput).
  vm_compute. reflexivity.
Defined.

(** ** Column names *)
Lemma uintDigits_inj (u u' : Decimal.uint) : uintDigits u = uintDigits u' -> u = u'.
Proof.
  revert u'. induction u; destruct u'; simpl; try discriminate;
    intros H; try reflexivity; injection H as H; f_equal; auto.
Qed.

Lemma decimal_inj (n m : N) : decimal n = decimal m -> n = m.
Proof. intros H%uintDigits_inj. apply DecimalN.Unsigned.to_uint_inj, H. Qed.

(** X8.  A key whose sanitization is empty gets the name [Column_] and
    its position counted from 1; two such keys at different positions get
    different names. *)
Theorem fallback_names_distinct (i j : nat) (k1 k2 : jsstring) :
  keepNameChars (underscoreRuns false (stripEdges (trim k1))) = [] ->
  keepNameChars (underscoreRuns false (stripEdges (trim k2))) = [] ->
  cleanColumn i k1 = str "Column_" ++ decimal (N.of_nat i + 1) /\
  (cleanColumn i k1 = cleanColumn j k2 -> i = j).
Proof.
  intros H1 H2. unfold cleanColumn. rewrite H1, H2. split; [reflexivity|].
  intros H. apply app_inv_head, decimal_inj in H. lia.
Qed.

(** The theorem at the keys ["#"] and ["--"] in the first two positions. *)
Lemma fallback_names_witness :
  cleanColumn 0 (str "#") = str "Column_" ++ decimal (N.of_nat 0 + 1) /\
  (cleanColumn 0 (str "#") = cleanColumn 1 (str "--") -> 0%nat = 1%nat).
Proof.
  apply (fallback_names_distinct 0 1 (str "#") (str "--")); reflexivity.
Defined.

Lemma dropWhile_pad (p : N -> bool) (a s : jsstring) :
  Forall (fun c => p c = true) a -> dropWhile p (a ++ s) = dropWhile p s.
Proof. induction 1 as [|c a Hc _ IH]; simpl; [|rewrite Hc]; auto. Qed.

Lemma dropWhile_all (p : N -> bool) (s : jsstring) :
  Forall (fun c => p c = true) s -> dropWhile p s = [].
Proof. intros H. rewrite <- (app_nil_r s). apply dropWhile_pad, H. Qed.

Lemma dropWhile_nil (p : N -> bool) (s : jsstring) :
  dropWhile p s = [] -> Forall (fun c => p c = true) s.
Proof.
  induction s as [|c s IH]; simpl; [constructor|].
  destruct (p c) eqn:Hc; [|discriminate]. intros H. constructor; auto.
Qed.

Lemma dropWhile_app (p : N -> bool) (s b : jsstring) :
  dropWhile p s <> [] -> dropWhile p (s ++ b) = dropWhile p s ++ b.
Proof.
  induction s as [|c s IH]; simpl; [contradiction|].
  destruct (p c); auto.
Qed.

Lemma dropWhileEnd_pad (p : N -> bool) (s b : jsstring) :
  Forall (fun c => p c = true) b -> dropWhileEnd p (s ++ b) = dropWhileEnd p s.
Proof.
  intros H. unfold dropWhileEnd. rewrite rev_app_distr, dropWhile_pad; [reflexivity|].
  apply Forall_rev, H.
Qed.

(** Both ends stripped of the characters of a class. *)
Lemma strip_pad (p : N -> bool) (a s b : jsstring) :
  Forall (fun c => p c = true) a -> Forall (fun c => p c = true) b ->
  dropWhileEnd p (dropWhile p (a ++ s ++ b)) = dropWhileEnd p (dropWhile p s).
Proof.
  intros Ha Hb. rewrite (dropWhile_pad p a _ Ha).
  destruct (dropWhile p s) as [|c r] eqn:E.
  - apply dropWhile_nil in E. rewrite dropWhile_all; [reflexivity|].
    apply Forall_app. split; assumption.
  - rewrite dropWhile_app by (rewrite E; discriminate).
    rewrite E. apply dropWhileEnd_pad, Hb.
Qed.

Lemma dropWhile_split (p : N -> bool) (s : jsstring) :
  exists pre, s = pre ++ dropWhile p s /\ Forall (fun c => p c = true) pre.
Proof.
  induction s as [|x s (pre & IH & Hpre)]; simpl.
  - exists []. split; [reflexivity|constructor].
  - destruct (p x) eqn:Hx.
    + exists (x :: pre). split; [simpl; f_equal; exact IH|constructor; assumption].
    + exists []. split; [reflexivity|constructor].
Qed.

Lemma dropWhileEnd_split (p : N -> bool) (s : jsstring) :
  exists suf, s = dropWhileEnd p s ++ suf /\ Forall (fun c => p c = true) suf.
Proof.
  unfold dropWhileEnd.
  destruct (dropWhile_split p (rev s)) as (pre & H & Hpre).
  exists (rev pre). split.
  - rewrite <- rev_app_distr, <- H, rev_involutive. reflexivity.
  - apply Forall_rev, Hpre.
Qed.

Lemma space_is_edge (c : N) : isSpace c = true -> isEdgeChar c = true.
Proof. intros H. unfold isEdgeChar. rewrite H. apply orb_true_r. Qed.

Lemma stripEdges_trim (s : jsstring) : stripEdges (trim s) = stripEdges s.
Proof.
  unfold trim.
  destruct (dropWhile_split isSpace s) as (a & Ha & Hsa).
  destruct (dropWhileEnd_split isSpace (dropWhile isSpace s)) as (b & Hb & Hsb).
  rewrite Ha at 2. rewrite Hb at 2. unfold stripEdges.
  symmetry. apply strip_pad.
  - eapply Forall_impl; [exact Hsa|]. apply space_is_edge.
  - eapply Forall_impl; [exact Hsb|]. apply space_is_edge.
Qed.

(** X9.  Characters [#], [-] and white space around a key do not change
    its column name. *)
Theorem decorations_do_not_change_the_name (index : nat) (a col b : jsstring) :
  Forall (fun c => isEdgeChar c = true) a ->
  Forall (fun c => isEdgeChar c = true) b ->
  cleanColumn index (a ++ col ++ b) = cleanColumn index col.
Proof.
  intros Ha Hb. unfold cleanColumn.
  rewrite (stripEdges_trim (a ++ col ++ b)), (stripEdges_trim col).
  unfold stripEdges. rewrite (strip_pad isEdgeChar a col b Ha Hb). reflexivity.
Qed.

(** The theorem at the key ["# Name -"]. *)
Lemma decorations_witness :
  cleanColumn 2 (str "# " ++ str "Name" ++ str " -") = cleanColumn 2 (str "Name").
Proof.
  apply (decorations_do_not_change_the_name 2 (str "# ") (str "Name") (str " -"));
    repeat constructor.
Defined.

(** ** The response of the extraction service *)

Lemma lastClose_none (next : jsstring -> bool) (s : jsstring) :
  93 ∉ s -> lastClose next s = None.
Proof.
  induction s as [|c s IH]; simpl; [reflexivity|].
  intros H. apply not_elem_of_cons in H as [Hc Hs]. rewrite (IH Hs).
  replace (c =? 93) with false; [reflexivity|].
  symmetry. apply N.eqb_neq. congruence.
Qed.

Lemma lastClose_found (next : jsstring -> bool) (x r : jsstring) :
  next r = true -> 93 ∉ r -> lastClose next (x ++ 93 :: r) = Some (x ++ [93]).
Proof.
  intros Hn Hr. induction x as [|c x IH]; simpl.
  - rewrite (lastClose_none next r Hr), Hn. reflexivity.
  - rewrite IH. reflexivity.
Qed.

Lemma lastClose_prefix (next : jsstring -> bool) (s m : jsstring) :
  lastClose next s = Some m ->
  exists x r, s = x ++ 93 :: r /\ m = x ++ [93] /\ next r = true /\
              lastClose next r = None.
Proof.
  revert m. induction s as [|c s IH]; intros m; simpl; [discriminate|].
  destruct (lastClose next s) as [m'|] eqn:E.
  - intros H. injection H as <-.
    destruct (IH m' eq_refl) as (x & r & -> & -> & Hn & Hr).
    exists (c :: x), r. auto.
  - destruct (c =? 93) eqn:Hc; [|discriminate].
    destruct (next s) eqn:Hn; [|discriminate].
    intros H. injection H as <-. apply N.eqb_eq in Hc as ->.
    exists [], s. auto.
Qed.

Lemma lastClose_true_none (s : jsstring) :
  lastClose (fun _ => true) s = None -> 93 ∉ s.
Proof.
  induction s as [|c s IH]; simpl; [intros _; apply not_elem_of_nil|].
  destruct (lastClose _ s); [discriminate|].
  destruct (c =? 93) eqn:Hc; [discriminate|]. intros _.
  apply not_elem_of_cons. split; [|auto].
  apply N.eqb_neq in Hc. congruence.
Qed.

Lemma matchPrefix_literal (p s : jsstring) :
  matchPrefix (literal p) (p ++ s) = Some s.
Proof.
  induction p as [|c p IH]; simpl; [reflexivity|].
  rewrite N.eqb_refl. exact IH.
Qed.

Lemma matchPrefix_literal_head (c x : N) (p s : jsstring) :
  c <> x -> matchPrefix (literal (x :: p)) (c :: s) = None.
Proof.
  intros H. simpl. replace (c =? x) with false; [reflexivity|].
  symmetry. apply N.eqb_neq, H.
Qed.

Lemma firstMatch_skip (matchAt : jsstring -> option jsstring) (pre s : jsstring) :
  (forall c r, c ∈ pre -> matchAt (c :: r) = None) ->
  firstMatch matchAt (pre ++ s) = firstMatch matchAt s.
Proof.
  induction pre as [|c pre IH]; intros H; [reflexivity|].
  cbn [app firstMatch]. rewrite (H c (pre ++ s)) by left.
  apply IH. intros c' r Hc'. apply H. right. exact Hc'.
Qed.

Lemma firstMatch_here (matchAt : jsstring -> option jsstring) (s m : jsstring) :
  matchAt s = Some m -> firstMatch matchAt s = Some m.
Proof. intros H. destruct s; simpl; rewrite H; reflexivity. Qed.

Lemma firstMatch_prop (matchAt : jsstring -> option jsstring)
    (P : jsstring -> Prop) (s m : jsstring) :
  (forall s m, matchAt s = Some m -> P m) ->
  firstMatch matchAt s = Some m -> P m.
Proof.
  intros H. induction s as [|c s IH]; simpl.
  - destruct (matchAt []) eqn:E; [|discriminate].
    intros [= <-]. exact (H _ _ E).
  - destruct (matchAt (c :: s)) eqn:E; [|exact IH].
    intros [= <-]. exact (H _ _ E).
Qed.

Lemma fencedAt_not_fence (c : N) (r : jsstring) : c <> 96 -> fencedAt (c :: r) = None.
Proof.
  intros H. unfold fencedAt.
  change (str "```") with [96; 96; 96].
  rewrite (matchPrefix_literal_head c 96 [96; 96] r H). reflexivity.
Qed.

Lemma bareAt_not_open (c : N) (r : jsstring) : c <> 91 -> bareAt (c :: r) = None.
Proof.
  intros H. unfold bareAt.
  destruct c as [|p]; [reflexivity|].
  do 7 (destruct p as [p|p|]; try reflexivity). contradiction.
Qed.

Lemma isSpace_dropWhile_keep (c : N) (ws r : jsstring) :
  Forall (fun x => isSpace x = true) ws -> isSpace c = false ->
  dropWhile isSpace (ws ++ c :: r) = c :: r.
Proof.
  intros Hws Hc. induction Hws as [|x ws Hx _ IH]; simpl.
  - rewrite Hc. reflexivity.
  - rewrite Hx. exact IH.
Qed.

Lemma space_not_in (c : N) (ws : jsstring) :
  Forall (fun x => isSpace x = true) ws -> isSpace c = false -> c ∉ ws.
Proof.
  intros Hws Hc Hin. rewrite Forall_forall in Hws.
  rewrite (Hws c Hin) in Hc. discriminate.
Qed.

Lemma bracketed_app (body r : jsstring) :
  (91 :: body ++ [93]) ++ r = 91 :: body ++ 93 :: r.
Proof. simpl. rewrite <- app_assoc. reflexivity. Qed.

(** X10.  An array text inside a markdown fence is recovered whole: with
    no backquote (96) before the fence, white space around the array and
    no closing bracket after the fence, the capture is the text from its
    opening bracket to its closing bracket, with or without the tag
    [json]. *)
Theorem fencedArray_recovers (tagged : bool) (pre ws1 body ws2 suf : jsstring) :
  96 ∉ pre ->
  Forall (fun c => isSpace c = true) ws1 ->
  Forall (fun c => isSpace c = true) ws2 ->
  93 ∉ suf ->
  fencedArray (pre ++ str "```" ++ (if tagged then str "json" else []) ++ ws1
               ++ (91 :: body ++ [93]) ++ ws2 ++ str "```" ++ suf)
  = Some (91 :: body ++ [93]).
Proof.
  intros Hpre Hws1 Hws2 Hsuf. unfold fencedArray.
  rewrite firstMatch_skip.
  2:{ intros c r Hc. apply fencedAt_not_fence. intros ->. contradiction. }
  apply firstMatch_here. unfold fencedAt.
  rewrite matchPrefix_literal.
  assert (Htag : match matchPrefix (literal (str "json"))
                         ((if tagged then str "json" else []) ++ ws1 ++
                          (91 :: body ++ [93]) ++ ws2 ++ str "```" ++ suf) with
                 | Some r' => r'
                 | None => (if tagged then str "json" else []) ++ ws1 ++
                           (91 :: body ++ [93]) ++ ws2 ++ str "```" ++ suf
                 end = ws1 ++ 91 :: (body ++ 93 :: ws2 ++ str "```" ++ suf)).
  { destruct tagged.
    - rewrite matchPrefix_literal, bracketed_app. reflexivity.
    - rewrite !app_nil_l, bracketed_app.
      replace (matchPrefix _ _) with (@None jsstring); [reflexivity|].
      symmetry. destruct Hws1 as [|x ws1 Hx _].
      + reflexivity.
      + apply matchPrefix_literal_head. intros ->. discriminate. }
  rewrite Htag.
  rewrite isSpace_dropWhile_keep by (exact Hws1 || reflexivity).
  rewrite lastClose_found; [reflexivity| |].
  - unfold closesFence.
    change (str "```" ++ suf) with (96 :: (96 :: 96 :: suf)).
    rewrite isSpace_dropWhile_keep by (exact Hws2 || reflexivity).
    reflexivity.
  - rewrite !not_elem_of_app. split; [|split; [|exact Hsuf]].
    + apply space_not_in; [exact Hws2|reflexivity].
    + intros H. vm_compute in H. repeat (apply elem_of_cons in H as [H|H]; [discriminate|]).
      inversion H.
Qed.

(** The theorem at a tagged fence after the words ["Table: "], with line
    feeds around the array [[{}]]. *)
Lemma fencedArray_witness :
  fencedArray (str "Table: " ++ str "```" ++ (if true then str "json" else [])
               ++ [10] ++ (91 :: str "{}" ++ [93]) ++ [10] ++ str "```"
               ++ str " done")
  = Some (91 :: str "{}" ++ [93]).
Proof.
  apply (fencedArray_recovers true (str "Table: ") [10] (str "{}") [10]
           (str " done")).
  - apply (bool_decide_unpack _). vm_compute. exact I.
  - repeat constructor.
  - repeat constructor.
  - apply (bool_decide_unpack _). vm_compute. exact I.
Defined.

(** X11.  The last fallback takes the text from the first opening
    bracket to the last closing bracket, and has a match exactly when such
    a pair exists. *)
Theorem bareArray_spans_outermost_brackets (s c : jsstring) :
  bareArray s = Some c <->
  exists pre body suf,
    s = pre ++ c ++ suf /\ c = 91 :: body ++ [93] /\ (91 ∉ pre) /\ (93 ∉ suf).
Proof.
  unfold bareArray. split.
  - revert c. induction s as [|ch s IH]; intros c; [discriminate|].
    cbn [firstMatch].
    destruct (bareAt (ch :: s)) as [m|] eqn:E.
    + intros [= <-]. unfold bareAt in E.
      destruct ch as [|p]; [discriminate|].
      do 7 (destruct p as [p|p|]; try discriminate).
      destruct (lastClose (fun _ => true) s) as [m'|] eqn:E'; [|discriminate].
      injection E as <-.
      apply lastClose_prefix in E' as (x & r & -> & -> & _ & Hr).
      exists [], x, r. split; [|split; [reflexivity|split]].
      * rewrite bracketed_app. reflexivity.
      * apply not_elem_of_nil.
      * apply lastClose_true_none, Hr.
    + intros H. destruct (IH c H) as (pre & body & suf & -> & -> & Hpre & Hsuf).
      exists (ch :: pre), body, suf. split; [reflexivity|].
      split; [reflexivity|]. split; [|exact Hsuf].
      apply not_elem_of_cons. split; [|exact Hpre].
      intros <-. unfold bareAt in E.
      destruct (lastClose (fun _ => true) (pre ++ (91 :: body ++ [93]) ++ suf))
        eqn:E'; [discriminate|].
      apply lastClose_true_none in E'. apply E'.
      rewrite !elem_of_app, elem_of_cons, elem_of_app, list_elem_of_singleton.
      auto.
  - intros (pre & body & suf & -> & -> & Hpre & Hsuf).
    rewrite firstMatch_skip.
    2:{ intros ch r Hch. apply bareAt_not_open. intros ->. contradiction. }
    apply firstMatch_here. rewrite bracketed_app. unfold bareAt.
    rewrite lastClose_found; [reflexivity|reflexivity|exact Hsuf].
Qed.

Lemma fencedArray_head (s m : jsstring) : fencedArray s = Some m -> head m = Some 91.
Proof.
  unfold fencedArray.
  apply (firstMatch_prop fencedAt (fun m => head m = Some 91)).
  clear. intros s m. unfold fencedAt.
  destruct (matchPrefix _ s) as [r|]; [|discriminate].
  destruct (dropWhile isSpace _) as [|ch body]; [discriminate|].
  destruct ch as [|p]; [discriminate|].
  do 7 (destruct p as [p|p|]; try discriminate).
  destruct (lastClose _ body); [|discriminate].
  intros [= <-]. reflexivity.
Qed.

Lemma bareArray_head (s m : jsstring) : bareArray s = Some m -> head m = Some 91.
Proof.
  intros H. apply bareArray_spans_outermost_brackets in H
    as (pre & body & suf & _ & -> & _). reflexivity.
Qed.

Section ResponseFacts.

Variable jsonParse : jsstring -> option value.

Lemma tableFromText_array (text : option jsstring) :
  (forall s v, head s = Some 91 -> jsonParse s = Some v -> isArray v = true) ->
  isArray (tableFromText jsonParse text) = true.
Proof.
  intros Hparse. unfold tableFromText.
  destruct text as [[|c s]|]; try reflexivity.
  destruct (bool_decide _); [reflexivity|].
  destruct (parseJsonText jsonParse (c :: s)) as [v|] eqn:E; [|reflexivity].
  destruct (truthy v); [|reflexivity].
  unfold parseJsonText in E.
  destruct (jsonParse (c :: s)) as [w|].
  - injection E as <-. destruct (isArray w) eqn:Hw; [exact Hw|reflexivity].
  - destruct (fencedArray (c :: s)) as [m|] eqn:Em.
    + exact (Hparse _ _ (fencedArray_head _ _ Em) E).
    + destruct (bareArray (c :: s)) as [m|] eqn:Eb; [|discriminate].
      exact (Hparse _ _ (bareArray_head _ _ Eb) E).
Qed.

End ResponseFacts.

(** X12.  With a parser that gives an array for every text it accepts
    that starts with a bracket, as [JSON.parse] does, both extraction
    functions return an array, whatever the key, the file and the response
    are. *)
Theorem extraction_returns_an_array (jsonParse : jsstring -> option value)
    (apiKey fileExists fileRead : bool) (response : option (option jsstring)) :
  (forall s v, head s = Some 91 -> jsonParse s = Some v -> isArray v = true) ->
  isArray (extractTableFromPDFBuffer jsonParse apiKey response) = true /\
  isArray (extractTableFromPDF jsonParse apiKey fileExists fileRead response) = true.
Proof.
  intros Hparse. unfold extractTableFromPDFBuffer, extractTableFromPDF.
  destruct apiKey, fileExists, fileRead, response as [text|]; simpl;
    split; try reflexivity; apply tableFromText_array, Hparse.
Qed.

Lemma tinyJson_arrays (s : jsstring) (v : value) :
  head s = Some 91 -> tinyJson s = Some v -> isArray v = true.
Proof.
  unfold tinyJson. intros Hs.
  destruct (bool_decide (s = str "null")) eqn:E.
  - apply bool_decide_eq_true in E. subst s. discriminate.
  - destruct (bool_decide (s = str "[]")); [|discriminate].
    intros [= <-]. reflexivity.
Qed.

(** The theorem at the parser [tinyJson] and the response [[]]. *)
Lemma extraction_returns_an_array_witness :
  isArray (extractTableFromPDFBuffer tinyJson true (Some (Some (str "[]")))) = true /\
  isArray (extractTableFromPDF tinyJson true true true (Some (Some (str "[]")))) = true.
Proof.
  apply (extraction_returns_an_array tinyJson true true true
           (Some (Some (str "[]")))).
  exact tinyJson_arrays.
Defined.

(** X13.  A response that parses to a value that is not an array comes
    out wrapped in a one-element array; on it the conversion throws when
    the value is [null] and gives the empty table when it is a boolean or a
    number. *)
Theorem scalar_response_through_the_pipeline (jsonParse : jsstring -> option value)
    (h : host) (dp : jsstring -> bool) (jsonText : jsstring) (v : value) :
  trim jsonText <> [] ->
  jsonParse jsonText = Some v ->
  isArray v = false ->
  let table := extractTableFromPDFBuffer jsonParse true (Some (Some jsonText)) in
  table = VArray [v] /\
  (v = VNull ->
     convertJsonToParsedData h dp (arrayElements table) = Throws TypeError) /\
  ((exists b, v = VBool b) \/ (exists n, v = VNumber n) ->
     convertJsonToParsedData h dp (arrayElements table) = Returns emptyData).
Proof.
  intros Htrim Hparse Harr table.
  assert (Ht : table = VArray [v]).
  { unfold table, extractTableFromPDFBuffer, tableFromText. cbn [negb].
    destruct jsonText as [|c s]; [contradiction|].
    rewrite bool_decide_eq_false_2 by exact Htrim.
    unfold parseJsonText. rewrite Hparse, Harr. reflexivity. }
  rewrite Ht. split; [reflexivity|]. split.
  - intros ->. reflexivity.
  - intros [[b ->]|[n ->]]; reflexivity.
Qed.

(** The theorem at the parser [tinyJson] and the response [null]. *)
Lemma scalar_response_witness :
  let table :=
    extractTableFromPDFBuffer tinyJson true (Some (Some (str "null"))) in
  table = VArray [VNull] /\
  (VNull = VNull ->
     convertJsonToParsedData objectLibrary isoDay (arrayElements table)
       = Throws TypeError) /\
  ((exists b, VNull = VBool b) \/ (exists n, VNull = VNumber n) ->
     convertJsonToParsedData objectLibrary isoDay (arrayElements table)
       = Returns emptyData).
Proof.
  apply (scalar_response_through_the_pipeline tinyJson objectLibrary isoDay
           (str "null") VNull).
  - vm_compute. discriminate.
  - reflexivity.
  - reflexivity.
Defined.

(** ** Numbers through the pipeline *)

Lemma digitsN_fold (s : jsstring) : digitsN s = fold_left digitStep s 0.
Proof. reflexivity. Qed.

Lemma fold_uintDigits (u : Decimal.uint) (acc : positive) :
  fold_left digitStep (uintDigits u) (N.pos acc) = N.pos (Pos.of_uint_acc u acc).
Proof.
  revert acc. induction u; intros acc; simpl; try reflexivity;
    rewrite <- IHu; f_equal; unfold digitStep; lia.
Qed.

Lemma digitsN_uintDigits (u : Decimal.uint) : digitsN (uintDigits u) = N.of_uint u.
Proof.
  rewrite digitsN_fold. unfold N.of_uint.
  induction u; simpl; try reflexivity; try exact IHu;
    apply (fold_uintDigits u).
Qed.

Lemma digitsN_decimal (n : N) : digitsN (decimal n) = n.
Proof. unfold decimal. rewrite digitsN_uintDigits. apply DecimalN.Unsigned.of_to. Qed.

Lemma uintDigits_digits (u : Decimal.uint) :
  Forall (fun c => isDigit c = true) (uintDigits u).
Proof. induction u; simpl; constructor; auto. Qed.

Lemma decimal_digits (n : N) : Forall (fun c => isDigit c = true) (decimal n).
Proof. apply uintDigits_digits. Qed.

Lemma decimal_not_nil (n : N) : decimal n <> [].
Proof.
  intros H. pose proof (digitsN_decimal n) as E. rewrite H in E.
  simpl in E. subst n. discriminate.
Qed.

Lemma fold_digits_app (a b : jsstring) (acc : N) :
  fold_left digitStep (a ++ b) acc = fold_left digitStep b (fold_left digitStep a acc).
Proof. apply fold_left_app. Qed.

Lemma fold_zeros (j : nat) (acc : N) :
  fold_left digitStep (zeros j) acc = acc * 10 ^ N.of_nat j.
Proof.
  revert acc. induction j as [|j IH]; intros acc.
  - simpl. lia.
  - change (zeros (S j)) with (48 :: zeros j). cbn [fold_left].
    rewrite IH. unfold digitStep.
    rewrite Nat2N.inj_succ, N.pow_succ_r'. lia.
Qed.

Lemma digitsN_zeros_l (j : nat) (s : jsstring) : digitsN (zeros j ++ s) = digitsN s.
Proof.
  rewrite !digitsN_fold, fold_digits_app, fold_zeros. reflexivity.
Qed.

Lemma digitsN_zeros_r (j : nat) (s : jsstring) :
  digitsN (s ++ zeros j) = digitsN s * 10 ^ N.of_nat j.
Proof. rewrite !digitsN_fold, fold_digits_app, fold_zeros. reflexivity. Qed.

Lemma zeros_digits (j : nat) : Forall (fun c => isDigit c = true) (zeros j).
Proof. induction j; simpl; constructor; auto. Qed.

Lemma spanDigits_app (ds rest : jsstring) :
  Forall (fun c => isDigit c = true) ds ->
  (forall c, head rest = Some c -> isDigit c = false) ->
  spanDigits (ds ++ rest) = (ds, rest).
Proof.
  intros Hds Hrest. induction Hds as [|c ds Hc _ IH]; simpl.
  - destruct rest as [|c r]; [reflexivity|]. simpl.
    rewrite (Hrest c eq_refl). reflexivity.
  - rewrite Hc, IH. reflexivity.
Qed.

Lemma spanDigits_all (ds : jsstring) :
  Forall (fun c => isDigit c = true) ds -> spanDigits ds = (ds, []).
Proof.
  intros H. rewrite <- (app_nil_r ds) at 1. apply spanDigits_app; [exact H|].
  discriminate.
Qed.

Lemma digitsValue_digits (ds : jsstring) (acc : N) :
  Forall (fun c => isDigit c = true) ds ->
  digitsValue 10 acc ds = Some (fold_left digitStep ds acc).
Proof.
  intros H. revert acc. induction H as [|c ds Hc _ IH]; intros acc; simpl.
  - reflexivity.
  - unfold hexValue. rewrite Hc.
    unfold isDigit in Hc. apply andb_true_iff in Hc as [H1 H2].
    apply N.leb_le in H1, H2.
    replace (c - 48 <? 10) with true by (symmetry; apply N.ltb_lt; lia).
    apply IH.
Qed.

Lemma wholeNumber_decimal (n : N) : wholeNumber 10 (decimal n) = Some n.
Proof.
  unfold wholeNumber. destruct (decimal n) as [|c r] eqn:E.
  - exfalso. exact (decimal_not_nil n E).
  - rewrite <- E, digitsValue_digits by apply decimal_digits.
    rewrite <- digitsN_fold, digitsN_decimal. reflexivity.
Qed.

Lemma exponentPart_text (x : Z) : exponentPart (101 :: exponentText x) = Some x.
Proof.
  unfold exponentText. cbn [exponentPart].
  change ((101 =? 101) || (101 =? 69)) with true. cbn iota.
  destruct (x <? 0)%Z eqn:Hx.
  - rewrite wholeNumber_decimal. simpl. f_equal. apply Z.ltb_lt in Hx. lia.
  - rewrite wholeNumber_decimal. simpl. f_equal. apply Z.ltb_ge in Hx. lia.
Qed.

Lemma stripZeros_canonical (fuel : nat) (m : N) (e : Z) :
  m <> 0 -> m mod 10 <> 0 -> stripZeros (S fuel) m e = (m, e).
Proof.
  intros H0 H1. simpl.
  rewrite (proj2 (N.eqb_neq _ _) H0), (proj2 (N.eqb_neq _ _) H1). reflexivity.
Qed.

Lemma stripZeros_pow (j fuel : nat) (m : N) (e : Z) :
  m <> 0 -> m mod 10 <> 0 -> (j < fuel)%nat ->
  stripZeros fuel (m * 10 ^ N.of_nat j) e = (m, (e + Z.of_nat j)%Z).
Proof.
  intros H0 H1. revert fuel e. induction j as [|j IH]; intros fuel e Hlt.
  - destruct fuel as [|fuel]; [lia|].
    rewrite N.mul_1_r, stripZeros_canonical by assumption.
    f_equal. lia.
  - destruct fuel as [|fuel]; [lia|].
    rewrite Nat2N.inj_succ, N.pow_succ_r'. cbn [stripZeros].
    assert (Hpos : 10 ^ N.of_nat j <> 0) by (apply N.pow_nonzero; lia).
    replace (m * (10 * 10 ^ N.of_nat j) =? 0) with false
      by (symmetry; apply N.eqb_neq; lia).
    replace (m * (10 * 10 ^ N.of_nat j)) with (m * 10 ^ N.of_nat j * 10) by lia.
    rewrite N.Div0.mod_mul, N.eqb_refl, N.div_mul by lia.
    rewrite IH by lia. f_equal. lia.
Qed.

Lemma finite_canonical (neg : bool) (m : N) (e : Z) :
  m <> 0 -> m mod 10 <> 0 -> finite neg m e = Finite neg m e.
Proof. intros H0 H1. unfold finite. rewrite stripZeros_canonical; auto. Qed.

Lemma finite_pow (neg : bool) (m : N) (j : nat) :
  m <> 0 -> m mod 10 <> 0 ->
  finite neg (m * 10 ^ N.of_nat j) 0 = Finite neg m (Z.of_nat j).
Proof.
  intros H0 H1. unfold finite. rewrite stripZeros_pow; auto.
  assert (Hpos : 10 ^ N.of_nat j <> 0) by (apply N.pow_nonzero; lia).
  assert (2 ^ N.of_nat j <= m * 10 ^ N.of_nat j).
  { transitivity (10 ^ N.of_nat j).
    - apply N.pow_le_mono_l. lia.
    - nia. }
  assert (N.of_nat j <= N.log2 (m * 10 ^ N.of_nat j)).
  { apply N.log2_le_pow2; [lia|assumption]. }
  lia.
Qed.

Lemma not_Infinity (c : N) (r : jsstring) :
  isDigit c = true -> bool_decide (c :: r = str "Infinity") = false.
Proof.
  intros Hc. apply bool_decide_eq_false_2. intros H.
  injection H as -> _. discriminate.
Qed.

Lemma unsignedDecimal_plain (neg : bool) (c : N) (ip : jsstring) :
  Forall (fun c => isDigit c = true) (c :: ip) ->
  unsignedDecimal neg (c :: ip) = finite neg (digitsN (c :: ip)) 0.
Proof.
  intros H. unfold unsignedDecimal.
  rewrite not_Infinity by exact (Forall_inv H).
  rewrite (spanDigits_all _ H). reflexivity.
Qed.

Lemma unsignedDecimal_exp (neg : bool) (c : N) (ip : jsstring) (x : Z) :
  Forall (fun c => isDigit c = true) (c :: ip) ->
  unsignedDecimal neg ((c :: ip) ++ 101 :: exponentText x)
  = finite neg (digitsN (c :: ip)) x.
Proof.
  intros H. unfold unsignedDecimal.
  rewrite <- app_comm_cons, not_Infinity by exact (Forall_inv H).
  rewrite app_comm_cons, (spanDigits_app _ _ H).
  2:{ intros c' [= <-]. reflexivity. }
  cbv iota beta. rewrite exponentPart_text. reflexivity.
Qed.

Lemma unsignedDecimal_frac (neg : bool) (c : N) (ip fp : jsstring) :
  Forall (fun c => isDigit c = true) (c :: ip) ->
  Forall (fun c => isDigit c = true) fp ->
  unsignedDecimal neg ((c :: ip) ++ 46 :: fp)
  = finite neg (digitsN ((c :: ip) ++ fp)) (- Z.of_nat (length fp)).
Proof.
  intros H Hf. unfold unsignedDecimal.
  rewrite <- app_comm_cons, not_Infinity by exact (Forall_inv H).
  rewrite app_comm_cons, (spanDigits_app _ _ H).
  2:{ intros c' [= <-]. reflexivity. }
  cbv iota beta. rewrite (spanDigits_all _ Hf). reflexivity.
Qed.

Lemma unsignedDecimal_frac_exp (neg : bool) (c : N) (ip fp : jsstring) (x : Z) :
  Forall (fun c => isDigit c = true) (c :: ip) ->
  Forall (fun c => isDigit c = true) fp ->
  unsignedDecimal neg ((c :: ip) ++ 46 :: fp ++ 101 :: exponentText x)
  = finite neg (digitsN ((c :: ip) ++ fp)) (x - Z.of_nat (length fp)).
Proof.
  intros H Hf. unfold unsignedDecimal.
  rewrite <- app_comm_cons, not_Infinity by exact (Forall_inv H).
  rewrite app_comm_cons, (spanDigits_app _ _ H).
  2:{ intros c' [= <-]. reflexivity. }
  cbv iota beta. rewrite (spanDigits_app _ _ Hf).
  2:{ intros c' [= <-]. reflexivity. }
  rewrite exponentPart_text. reflexivity.
Qed.

Lemma digit_cases (c : N) :
  isDigit c = true ->
  c = 48 \/ c = 49 \/ c = 50 \/ c = 51 \/ c = 52 \/ c = 53 \/ c = 54 \/
  c = 55 \/ c = 56 \/ c = 57.
Proof.
  unfold isDigit. rewrite andb_true_iff, !N.leb_le. lia.
Qed.

Lemma stringToNumber_digit_head (c : N) (r : jsstring) :
  isDigit c = true ->
  trim (c :: r) = c :: r ->
  (forall c2, head r = Some c2 ->
     isDigit c2 = true \/ c2 = 46 \/ c2 = 101 \/ c2 = 43 \/ c2 = 45) ->
  stringToNumber (c :: r) = unsignedDecimal false (c :: r).
Proof.
  intros Hc Htrim Hr. unfold stringToNumber. rewrite Htrim.
  destruct (digit_cases c Hc) as [->|[->|[->|[->|[->|[->|[->|[->|[->| ->]]]]]]]]];
    try reflexivity.
  destruct r as [|c2 r2]; [reflexivity|].
  destruct (Hr c2 eq_refl) as [H2|[->|[->|[->| ->]]]]; try reflexivity.
  destruct (digit_cases c2 H2) as [->|[->|[->|[->|[->|[->|[->|[->|[->| ->]]]]]]]]];
    reflexivity.
Qed.

Lemma numberToString_canonical (neg : bool) (m : N) (e : Z) :
  m <> 0 -> m mod 10 <> 0 ->
  numberToString (Finite neg m e) = (if neg then [45] else []) ++ unsignedText m e.
Proof.
  intros H0 H1. unfold numberToString.
  rewrite stripZeros_canonical by assumption.
  rewrite (proj2 (N.eqb_neq _ _) H0). reflexivity.
Qed.

Lemma digit_numberChar (c : N) : isDigit c = true -> numberChar c = true.
Proof. intros H. unfold numberChar. rewrite H. reflexivity. Qed.

Lemma digits_numberChars (s : jsstring) :
  Forall (fun c => isDigit c = true) s -> Forall (fun c => numberChar c = true) s.
Proof. intros H. eapply Forall_impl; [exact H|exact digit_numberChar]. Qed.

Lemma exponentText_chars (x : Z) :
  Forall (fun c => numberChar c = true) (101 :: exponentText x).
Proof.
  unfold exponentText. constructor; [reflexivity|].
  constructor; [destruct (x <? 0)%Z; reflexivity|].
  apply digits_numberChars, decimal_digits.
Qed.

Lemma unsignedText_spec (neg : bool) (m : N) (e : Z) :
  m <> 0 -> m mod 10 <> 0 ->
  unsignedDecimal neg (unsignedText m e) = Finite neg m e /\
  Forall (fun c => numberChar c = true) (unsignedText m e) /\
  exists d r, unsignedText m e = d :: r /\ isDigit d = true.
Proof.
  intros H0 H1. unfold unsignedText.
  pose proof (decimal_digits m) as Hds.
  pose proof (digitsN_decimal m) as Hval.
  destruct (decimal m) as [|d rest] eqn:E; [exfalso; exact (decimal_not_nil m E)|].
  set (ds := d :: rest) in *.
  assert (Hd : isDigit d = true) by exact (Forall_inv Hds).
  set (k := Z.of_nat (length ds)).
  assert (Hk : (1 <= k)%Z) by (unfold k, ds; simpl; lia).
  set (n := (k + e)%Z).
  cbv zeta.
  destruct ((k <=? n)%Z && (n <=? 21)%Z) eqn:CA.
  { apply andb_true_iff in CA as [C1 C2]. apply Z.leb_le in C1, C2.
    split; [|split].
    - unfold ds. rewrite <- app_comm_cons, unsignedDecimal_plain.
      + rewrite app_comm_cons, digitsN_zeros_r. fold ds. rewrite Hval.
        rewrite finite_pow by assumption. f_equal. unfold n in *. lia.
      + rewrite app_comm_cons. apply Forall_app. split; [exact Hds|apply zeros_digits].
    - apply Forall_app. split; apply digits_numberChars;
        [exact Hds|apply zeros_digits].
    - exists d, (rest ++ zeros (Z.to_nat (n - k))). split; [reflexivity|exact Hd]. }
  destruct ((0 <? n)%Z && (n <=? 21)%Z) eqn:CB.
  { apply andb_true_iff in CB as [C1 C2]. apply Z.ltb_lt in C1. apply Z.leb_le in C2.
    apply andb_false_iff in CA as [CA|CA];
      [apply Z.leb_gt in CA | apply Z.leb_gt in CA; lia].
    destruct (Z.to_nat n) as [|p] eqn:Ep; [lia|].
    assert (Hp : (S p < length ds)%nat) by (unfold k in *; lia).
    assert (Htake : take (S p) ds = d :: take p rest) by reflexivity.
    split; [|split].
    - rewrite Htake, unsignedDecimal_frac.
      + rewrite <- Htake, take_drop, Hval, finite_canonical by assumption.
        f_equal. rewrite length_drop. unfold n, k in *. lia.
      + rewrite <- Htake. apply Forall_take, Hds.
      + apply Forall_drop, Hds.
    - apply Forall_app. split.
      + apply digits_numberChars, Forall_take, Hds.
      + constructor; [reflexivity|].
        apply digits_numberChars, Forall_drop, Hds.
    - rewrite Htake. eexists _, _. split; [reflexivity|exact Hd]. }
  destruct ((-6 <? n)%Z && (n <=? 0)%Z) eqn:CC.
  { apply andb_true_iff in CC as [C1 C2]. apply Z.ltb_lt in C1. apply Z.leb_le in C2.
    set (z := Z.to_nat (- n)).
    split; [|split].
    - change (48 :: 46 :: zeros z ++ ds) with ([48] ++ 46 :: (zeros z ++ ds)).
      rewrite unsignedDecimal_frac.
      + change ([48] ++ zeros z ++ ds) with (zeros (S z) ++ ds).
        rewrite digitsN_zeros_l, Hval, finite_canonical by assumption.
        f_equal. rewrite length_app. unfold zeros. rewrite repeat_length.
        unfold z, n, k in *. lia.
      + repeat constructor.
      + apply Forall_app. split; [apply zeros_digits|exact Hds].
    - constructor; [reflexivity|]. constructor; [reflexivity|].
      apply Forall_app. split; apply digits_numberChars;
        [apply zeros_digits|exact Hds].
    - exists 48, (46 :: zeros z ++ ds). split; reflexivity. }
  unfold ds in *. destruct rest as [|c2 rest'].
  - split; [|split].
    + change (d :: 101 :: exponentText (n - 1))
        with ([d] ++ 101 :: exponentText (n - 1)).
      rewrite unsignedDecimal_exp by exact Hds.
      rewrite Hval, finite_canonical by assumption.
      f_equal. unfold n, k. simpl. lia.
    + constructor; [apply digit_numberChar, Hd|]. apply exponentText_chars.
    + eexists _, _. split; [reflexivity|exact Hd].
  - split; [|split].
    + change (d :: 46 :: (c2 :: rest') ++ 101 :: exponentText (n - 1))
        with ([d] ++ 46 :: (c2 :: rest') ++ 101 :: exponentText (n - 1)).
      rewrite unsignedDecimal_frac_exp.
      * change ([d] ++ c2 :: rest') with (d :: c2 :: rest').
        rewrite Hval, finite_canonical by assumption.
        f_equal. unfold n, k. simpl length. lia.
      * repeat constructor. exact Hd.
      * exact (Forall_inv_tail Hds).
    + constructor; [apply digit_numberChar, Hd|].
      constructor; [reflexivity|].
      apply Forall_app. split; [|apply exponentText_chars].
      apply digits_numberChars, (Forall_inv_tail Hds).
    + eexists _, _. split; [reflexivity|exact Hd].
Qed.

Lemma numberChar_range (c : N) :
  numberChar c = true -> (43 <= c <= 57 /\ c <> 44) \/ c = 101.
Proof.
  unfold numberChar, isDigit.
  rewrite !orb_true_iff, andb_true_iff, !N.leb_le, !N.eqb_eq. lia.
Qed.

Lemma numberChar_not_space (c : N) : numberChar c = true -> isSpace c = false.
Proof.
  intros H%numberChar_range.
  unfold isSpace, isWhiteSpace, isLineTerminator.
  outside_range c. reflexivity.
Qed.

Lemma numberChar_not_comma (c : N) : numberChar c = true -> negb (c =? 44) = true.
Proof.
  intros H%numberChar_range. apply negb_true_iff, N.eqb_neq. lia.
Qed.

Lemma numberChar_not_a (c : N) : numberChar c = true -> letterI 65 c = false.
Proof.
  intros H%numberChar_range. unfold letterI.
  apply orb_false_iff. split; apply N.eqb_neq; lia.
Qed.

Lemma removeFirst_no_match (s : jsstring) :
  Forall (fun c => letterI 65 c = false) s -> removeApprox s = s.
Proof.
  unfold removeApprox. induction 1 as [|c s Hc _ IH]; [reflexivity|].
  cbn [removeFirst]. unfold approxRegex at 1. cbn [matchPrefix].
  rewrite Hc. f_equal. exact IH.
Qed.

Lemma filter_all_true (p : N -> bool) (s : jsstring) :
  Forall (fun c => p c = true) s -> List.filter p s = s.
Proof. induction 1 as [|c s Hc _ IH]; simpl; [|rewrite Hc, IH]; reflexivity. Qed.

Lemma trim_no_space (s : jsstring) :
  Forall (fun c => isSpace c = false) s -> trim s = s.
Proof.
  intros H. apply trim_id; intros c Hc.
  - destruct s as [|x s]; [discriminate|]. injection Hc as <-. exact (Forall_inv H).
  - apply last_Some in Hc as (pre & ->).
    apply Forall_app in H as [_ H]. exact (Forall_inv H).
Qed.

Lemma cleanText_number (s : jsstring) :
  Forall (fun c => numberChar c = true) s -> cleanText s = s.
Proof.
  intros H. unfold cleanText.
  assert (Hsp : Forall (fun c => isSpace c = false) s)
    by (eapply Forall_impl; [exact H|exact numberChar_not_space]).
  rewrite (trim_no_space s Hsp). unfold removeCommas.
  rewrite filter_all_true
    by (eapply Forall_impl; [exact H|exact numberChar_not_comma]).
  rewrite removeFirst_no_match
    by (eapply Forall_impl; [exact H|exact numberChar_not_a]).
  apply trim_no_space, Hsp.
Qed.

Lemma digit_not_marker (s : jsstring) (c : N) :
  c ∈ s -> isDigit c = true -> isNullMarker s = false.
Proof.
  intros Hin Hc. destruct (isNullMarker s) eqn:E; [|reflexivity].
  apply isNullMarker_spec in E.
  destruct E as [->|[->|[->|[->| ->]]]];
    vm_compute in Hin;
    repeat (apply elem_of_cons in Hin as [->|Hin]; [discriminate|]);
    inversion Hin.
Qed.

Lemma canonical_cases (x : number) :
  canonical x = true ->
  x = NaN \/ (exists b, x = Infinity b) \/ x = Finite false 0 0 \/
  exists neg m e, x = Finite neg m e /\ m <> 0 /\ m mod 10 <> 0.
Proof.
  destruct x as [|b|neg m e]; simpl; [auto|eauto|].
  destruct (m =? 0) eqn:Hm.
  - apply N.eqb_eq in Hm as ->. intros H.
    apply andb_true_iff in H as [Hn He].
    apply negb_true_iff in Hn as ->. apply Z.eqb_eq in He as ->. auto.
  - apply N.eqb_neq in Hm. intros H%negb_true_iff%N.eqb_neq.
    right. right. right. eauto 6.
Qed.

Lemma finite_text (neg : bool) (m : N) (e : Z) :
  m <> 0 -> m mod 10 <> 0 ->
  let text := numberToString (Finite neg m e) in
  cleanText text = text /\ isNullMarker text = false /\
  stringToNumber text = Finite neg m e /\ trim text = text /\ text <> [].
Proof.
  intros H0 H1 text. unfold text.
  rewrite numberToString_canonical by assumption.
  destruct (unsignedText_spec neg m e H0 H1) as (Hparse & Hchars & d & r & Hu & Hd).
  assert (Hall : Forall (fun c => numberChar c = true)
                   ((if neg then [45] else []) ++ unsignedText m e)).
  { apply Forall_app. split; [|exact Hchars]. destruct neg; repeat constructor. }
  pose proof (cleanText_number _ Hall) as Hclean.
  assert (Htrim : trim ((if neg then [45] else []) ++ unsignedText m e)
                  = (if neg then [45] else []) ++ unsignedText m e).
  { apply trim_no_space. eapply Forall_impl; [exact Hall|].
    exact numberChar_not_space. }
  split; [exact Hclean|]. split; [|split; [|split; [exact Htrim|]]].
  - apply (digit_not_marker _ d); [|exact Hd].
    apply elem_of_app. right. rewrite Hu. left.
  - destruct neg.
    + cbn [app] in *. unfold stringToNumber. rewrite Htrim. exact Hparse.
    + cbn [app] in *. rewrite Hu in *.
      rewrite stringToNumber_digit_head; [exact Hparse|exact Hd|exact Htrim|].
      intros c2 Hc2. destruct r as [|c2' r']; [discriminate|].
      injection Hc2 as ->.
      pose proof (Forall_inv (Forall_inv_tail Hchars)) as H2.
      unfold numberChar in H2. rewrite !orb_true_iff, !N.eqb_eq in H2.
      tauto.
  - rewrite Hu. destruct neg; discriminate.
Qed.

(** X14.  A number survives the pipeline: [cleanValue] returns its text
    unchanged, the text qualifies as a number sample, and the final pass
    reads the same number back from it. *)
Theorem json_number_survives (x : number) :
  canonical x = true ->
  cleanValue (VNumber x) = Returns (Some (numberToString x)) /\
  toNumber (VString (numberToString x)) = Returns x /\
  (isNaN x = false -> isNumberSample (VString (numberToString x)) = true).
Proof.
  intros H%canonical_cases.
  destruct H as [->|[[b ->]|[->|(neg & m & e & -> & H0 & H1)]]].
  - repeat split. discriminate.
  - destruct b; repeat split.
  - repeat split.
  - destruct (finite_text neg m e H0 H1) as (Hclean & Hmark & Hnum & Htrim & Hne).
    split; [|split].
    + rewrite cleanValue_unfold by reflexivity.
      cbn [toString mbind result_bind]. rewrite Hclean, Hmark. reflexivity.
    + cbn [toNumber]. rewrite Hnum. reflexivity.
    + intros _. cbn [isNumberSample]. rewrite Hnum, Htrim.
      rewrite bool_decide_eq_false_2 by exact Hne. reflexivity.
Qed.

(** The theorem at the number -1.5. *)
Lemma json_number_witness :
  cleanValue (VNumber (Finite true 15 (-1)))
    = Returns (Some (numberToString (Finite true 15 (-1)))) /\
  toNumber (VString (numberToString (Finite true 15 (-1))))
    = Returns (Finite true 15 (-1)) /\
  (isNaN (Finite true 15 (-1)) = false ->
   isNumberSample (VString (numberToString (Finite true 15 (-1)))) = true).
Proof.
  apply (json_number_survives (Finite true 15 (-1))). reflexivity.
Defined.
